(** * victory-chart: the helper methods of the chart wrapper

    A shallow embedding of [src/components/victory-chart/helper-methods.js]
    and the properties of its seven operations: the selection of child
    components, the shared domain, the string map of a categorical axis,
    ticks and tick formats, the categories of grouped components and the
    offsets of the axes.

    Conventions of the embedding.
    - A JavaScript number is a canonical rational ([Qc]); [NaN] and the two
      infinities are values of their own where the code can produce them.
      Comparisons, [Math.min], [Math.max] and [Math.abs] are those of the
      rationals, and so is the difference of two pixel values. The mean in
      [getCategories], whose rounding shows in the categories, is computed
      in IEEE 754 binary64 with the operations of the Standard Library's
      [SpecFloat]; there a rational stands for the double nearest to it.
    - An object used as a dictionary is a plain object: it has its own
      properties and, behind them, the members of [Object.prototype]. The
      string map, whose enumeration order is observable through lodash's
      [values], is an association list of the own properties, kept in the
      order in which JavaScript enumerates own keys. A read [stringMap[key]]
      that finds no own property falls through to the inherited members, and
      the assignment [memo["__proto__"] = n] reaches the inherited setter,
      which ignores a number and creates no own property.
    - An array is an object with an identity: an array that occurs as a value
      carries a reference, and [===] between arrays compares references.
    - A React child is [null], a text node or an element; only an element has
      a [type].
    - A call that raises a [TypeError] in the source returns [None] (or
      [Throws]) here. *)

From Stdlib Require Import Ascii String QArith Qcanon Floats.SpecFloat.
From stdpp Require Import base numbers option list sorting gmap strings.

Local Open Scope Z_scope.
#[local] Set Warnings "-clear-no-such-hyp".

(** ** Numbers and values *)

Abbreviation Num := Qc.

(** The identity of an array object. *)
Abbreviation Ref := nat.

(** The values found in tick and category arrays: [undefined], [NaN], a
    number, a string, an array of numbers (the array object [ref] with the
    entries [a]), an infinity, or the member [name] that a plain object
    inherits from [Object.prototype] (a function, or the prototype itself for
    [__proto__]). *)
Inductive JsVal :=
  | VUndef
  | VNaN
  | VNum (q : Num)
  | VStr (s : string)
  | VArr (ref : Ref) (a : list Num)
  | VInfinity (negative : bool)
  | VInherited (name : string).

#[global] Instance JsVal_eq_dec : EqDecision JsVal.
Proof. solve_decision. Defined.

(** [Math.min] and [Math.max] of two numbers, and [Math.abs]. *)
Definition num_min (x y : Num) : Num := if decide (x ≤ y)%Qc then x else y.
Definition num_max (x y : Num) : Num := if decide (x ≤ y)%Qc then y else x.
Definition Math_abs (x : Num) : Num := if decide (0 ≤ x)%Qc then x else (- x)%Qc.

(** [Math.min(...l)] and [Math.max(...l)] for a non-empty argument list
    [x :: xs]. *)
Definition Math_min (x : Num) (xs : list Num) : Num := foldl num_min x xs.
Definition Math_max (x : Num) (xs : list Num) : Num := foldl num_max x xs.

(** ** The data model *)

(** The two kinds of axis ([Axis.getAxisType]) and the two keys ["x"] and
    ["y"] under which per-axis data is stored. *)
Inductive AxisType := Independent | Dependent.
Inductive Axis := X | Y.

#[global] Instance AxisType_eq_dec : EqDecision AxisType.
Proof. solve_decision. Defined.
#[global] Instance Axis_eq_dec : EqDecision Axis.
Proof. solve_decision. Defined.

(** A domain is a two-element array [[a, b]]. *)
Definition Domain : Type := Num * Num.

(** The props of a child element that the helpers or their collaborators
    read. *)
Record Props := {
  dependentAxis : bool;
  tickValues : option (list JsVal);
  categories : option (list JsVal);
  data : list (JsVal * JsVal);
  (* the identity of the array [categories] *)
  categoriesRef : Ref;
  (* the props [offsetX] and [offsetY] of an axis *)
  props_offsetX : option Num;
  props_offsetY : option Num
}.

(** The component class of an element: its static [role] and its static
    [getDomain]. *)
Record ComponentType := {
  role : option string;
  type_getDomain : Props → Axis → option Domain
}.

(** A child component: [type] and [props] as [React.createElement] sets
    them, and the properties [offsetX] and [offsetY] that [getAxisOffset]
    reads on the component itself, not in its props. An element made by
    React has no such property of its own (see [element]). *)
Record Child := {
  type : ComponentType;
  props : Props;
  offsetX : option Num;
  offsetY : option Num
}.

(** What [React.Children.forEach] hands to its callback. *)
Inductive ReactNode :=
  | NodeNull
  | NodeText (s : string)
  | NodeElement (c : Child).

(** The [domain] prop of the chart: one array for both axes, or an object
    with an optional array per axis. *)
Inductive DomainProp :=
  | DomainArray (d : Domain)
  | DomainObject (x y : option Domain).

Record ChartProps := {
  children : option (list ReactNode);
  domain : option DomainProp;
  width : Num;
  height : Num
}.

Record DefaultAxes := {
  independent : Child;
  dependent : Child
}.

(** The two messages passed to [Log.warn]: the one for a second axis of a
    kind, and the one for a second component of a limited role, which
    interpolates the role. *)
Inductive Warning :=
  | AxisLimitWarning
  | ComponentLimitWarning (type : string).

(** ** Axis helpers *)

(** Modelled from the spec: [Axis.getAxisType] of [helpers/axis], which is not
    among the sources. A child whose role is ["axis"] has an axis type, decided
    by the axis-type flag of its props; any other child has none. *)
Definition getAxisType (child : Child) : option AxisType :=
  match role (type child) with
  | Some r =>
      if decide (r = "axis")
      then Some (if dependentAxis (props child) then Dependent else Independent)
      else None
  | None => None
  end.

(** ** getChildComponents *)

(** A value of the [counts] object: a number, or the object
    [{independent, dependent}] of an axis role. *)
Inductive CountVal :=
  | CNum (n : Z)
  | CAxes (i d : Z).

(** The [counts] object by its own properties. For a role that names a
    member of [Object.prototype] the first read of [counts[type]] finds that
    member, which is truthy, and the counter becomes a string instead of a
    number. No branch of the module tells the two apart: a counter is tested
    for truth, compared with [1] under the role ["bar"] only, and read as an
    object under the key ["axis"] only, and neither key is inherited. *)
Abbreviation Counts := (gmap string CountVal).

(** The property key that [counts[type]] uses: the role, or ["undefined"]
    when the component class has no role. *)
Definition propKey (type : option string) : string := default "undefined" type.

(** Truthiness of [counts[type]]. *)
Definition truthy (v : option CountVal) : bool :=
  match v with
  | None => false
  | Some (CNum n) => negb (n =? 0)
  | Some (CAxes _ _) => true
  end.

Definition axisCount (axis : AxisType) (i d : Z) : Z :=
  match axis with Independent => i | Dependent => d end.

Definition axisBump (axis : AxisType) (i d : Z) : CountVal :=
  match axis with
  | Independent => CAxes (i + 1) d
  | Dependent => CAxes i (d + 1)
  end.

(** [addChild]. With an axis type and a numeric counter the assignment
    [counts[type][axis] = ...] sets a property of a primitive, a [TypeError]
    in module (strict) code; without an axis type and with an object counter
    the sum is no number. Both results are [None]; [scan_total] shows that
    neither arises. *)
Definition addChild (counts : Counts) (child : Child) : option Counts :=
  let ty := propKey (role (type child)) in
  let axis := getAxisType child in
  let counts :=
    if truthy (counts !! ty) then counts
    else <[ty := match axis with Some _ => CAxes 0 0 | None => CNum 0 end]> counts in
  match axis, counts !! ty with
  | Some a, Some (CAxes i d) => Some (<[ty := axisBump a i d]> counts)
  | None, Some (CNum n) => Some (<[ty := CNum (n + 1)]> counts)
  | _, _ => None
  end.

Definition limitReached (counts : Counts) (child : Child) : bool :=
  let ty := propKey (role (type child)) in
  let axis := getAxisType child in
  if negb (truthy (counts !! ty)) then false
  else match axis with
       | Some a =>
           match counts !! ty with
           | Some (CAxes i d) => 1 <=? axisCount a i d
           | _ => false
           end
       | None =>
           if decide (role (type child) = Some "bar")
           then match counts !! ty with
                | Some (CNum n) => 1 <=? n
                | _ => false
                end
           else false
       end.

(** [total(type, axis)] with an axis given, as in both calls of the source:
    a missing or non-numeric count is falsy and yields [0]. *)
Definition total (counts : Counts) (ty : string) (axis : AxisType) : Z :=
  match counts !! ty with
  | Some (CAxes i d) => axisCount axis i d
  | _ => 0
  end.

(** The state of the loop over the children: the counters, the array
    [childComponents] and the warnings logged so far. *)
Record Loop := {
  counts : Counts;
  childComponents : list Child;
  warnings : list Warning
}.

(** The callback of [React.Children.forEach]. *)
Definition visit (st : Loop) (node : ReactNode) : option Loop :=
  match node with
  | NodeElement child =>
      let ty := role (type child) in
      let st' :=
        if limitReached (counts st) child
        then {| counts := counts st;
                childComponents := childComponents st;
                warnings := warnings st ++
                  [if decide (ty = Some "axis") then AxisLimitWarning
                   else ComponentLimitWarning (propKey ty)] |}
        else {| counts := counts st;
                childComponents := childComponents st ++ [child];
                warnings := warnings st |} in
      counts' ← addChild (counts st) child;
      Some {| counts := counts';
              childComponents := childComponents st';
              warnings := warnings st' |}
  | _ => Some st
  end.

Fixpoint forEach (nodes : list ReactNode) (st : Loop) : option Loop :=
  match nodes with
  | [] => Some st
  | node :: nodes => st' ← visit st node; forEach nodes st'
  end.

(** The loop of [getChildComponents] from fresh counters and a fresh array;
    [log] holds what the logger received before the call. *)
Definition scan (nodes : list ReactNode) (log : list Warning) : option Loop :=
  forEach nodes {| counts := ∅; childComponents := []; warnings := log |}.

(** [getChildComponents]. The result is the returned array and the content
    of the logger after the call; [None] stands for a [TypeError] inside
    [addChild]. *)
Definition getChildComponents (props : ChartProps) (defaultAxes : DefaultAxes)
    (log : list Warning) : option (list Child * list Warning) :=
  match children props with
  | None => Some ([independent defaultAxes; dependent defaultAxes], log)
  | Some nodes =>
      st ← scan nodes log;
      let cc := childComponents st in
      let cc := if total (counts st) "axis" Independent <? 1
                then cc ++ [independent defaultAxes] else cc in
      let cc := if total (counts st) "axis" Dependent <? 1
                then cc ++ [dependent defaultAxes] else cc in
      Some (cc, warnings st)
  end.

(** ** getDataComponents *)

Inductive DataKind := all | data_only | grouped.

Definition getDataComponents (childComponents : list Child) (kind : DataKind)
    : list Child :=
  let predicate (r : option string) : bool :=
    match kind with
    | all => bool_decide (r ≠ Some "axis")
    | data_only => bool_decide (r ≠ Some "axis") && bool_decide (r ≠ Some "bar")
    | grouped => bool_decide (r = Some "bar")
    end in
  filter (λ child, predicate (role (type child)) = true) childComponents.

(** ** Collaborators

    The helpers of [helpers/axis], [helpers/domain] and [helpers/data] that
    the module calls and that are not among the sources; the operations are
    parametric in them. *)

Class AxisHelpers := {
  getAxisComponent : list Child → Axis → Child;
  getOrientation : Child → Axis → string;
  getAxisOrientations : list Child → Axis → string
}.

Class DomainHelpers := {
  padDomain : Domain → ChartProps → Axis → Domain;
  orientDomain : Domain → (Axis → string) → Axis → Domain
}.

Class DataHelpers := {
  getStringsFromAxes : Props → Axis → list string;
  getStringsFromCategories : Props → Axis → option (list string);
  getStringsFromData : Props → Axis → option (list string)
}.

(** victory-core's [Collection] predicates on arrays. *)
Definition isString (v : JsVal) : bool :=
  match v with VStr _ => true | _ => false end.
Definition isArray (v : JsVal) : bool :=
  match v with VArr _ _ => true | _ => false end.
Definition containsStrings (l : list JsVal) : bool := existsb isString l.
Definition containsOnlyStrings (l : list JsVal) : bool := forallb isString l.
Definition isArrayOfArrays (l : list JsVal) : bool := forallb isArray l.

(** ** getDomain *)

(** The test and the choice of the first branch of [getDomain]: the explicit
    domain of the chart for [axis], if any. *)
Definition domainOverride (chartProps : ChartProps) (axis : Axis) : option Domain :=
  match domain chartProps with
  | Some (DomainArray d) => Some d
  | Some (DomainObject x y) => match axis with X => x | Y => y end
  | None => None
  end.

(** The array [childDomains]: the endpoints that the children report. *)
Definition childDomains (childComponents : list Child) (axis : Axis) : list Num :=
  foldl (λ prev component,
           match type_getDomain (type component) (props component) axis with
           | Some childDomain => prev ++ [childDomain.1; childDomain.2]
           | None => prev
           end) [] childComponents.

(** The local [domain] of [getDomain], before padding and orientation. *)
Definition baseDomain (chartProps : ChartProps) (childComponents : list Child)
    (axis : Axis) : Domain :=
  match domainOverride chartProps axis with
  | Some d => d
  | None =>
      match childDomains childComponents axis with
      | [] => (0, 1)%Qc
      | x :: xs => (Math_min x xs, Math_max x xs)
      end
  end.

Definition getDomain `{AxisHelpers, DomainHelpers} (chartProps : ChartProps)
    (childComponents : list Child) (axis : Axis) : Domain :=
  let domain := baseDomain chartProps childComponents axis in
  let paddedDomain := padDomain domain chartProps axis in
  let orientations := getAxisOrientations childComponents in
  orientDomain paddedDomain orientations axis.

(** ** The string map *)

(** The own properties of the object, in enumeration order. *)
Abbreviation StringMap := (list (string * Z)).

Fixpoint obj_get (o : StringMap) (k : string) : option Z :=
  match o with
  | [] => None
  | (k', v) :: o' => if decide (k' = k) then Some v else obj_get o' k
  end.

Definition values (o : StringMap) : list Z := o.*2.

(** Array indices are enumerated first, in ascending order, and the other
    keys after them in insertion order. An array index is the canonical
    decimal form of an integer below [2^32 - 1]. *)
Definition digit (c : ascii) : option N :=
  let n := N_of_ascii c in
  if ((48 <=? n) && (n <=? 57))%N then Some (n - 48)%N else None.

Fixpoint digits_value (s : string) (acc : N) : option N :=
  match s with
  | EmptyString => Some acc
  | String c s' => d ← digit c; digits_value s' (10 * acc + d)%N
  end.

Definition array_index (s : string) : option N :=
  match s with
  | EmptyString => None
  | String c s' =>
      if decide (c = "0"%char)
      then (if decide (s' = EmptyString) then Some 0%N else None)
      else n ← digits_value s 0; if (n <? 2 ^ 32 - 1)%N then Some n else None
  end.

Fixpoint obj_insert_index (n : N) (k : string) (v : Z) (o : StringMap) : StringMap :=
  match o with
  | [] => [(k, v)]
  | (k', v') :: o' =>
      match array_index k' with
      | Some n' =>
          if (n' <? n)%N then (k', v') :: obj_insert_index n k v o'
          else (k, v) :: o
      | None => (k, v) :: o
      end
  end.

Fixpoint obj_update (k : string) (v : Z) (o : StringMap) : StringMap :=
  match o with
  | [] => []
  | (k', v') :: o' =>
      if decide (k' = k) then (k', v) :: o' else (k', v') :: obj_update k v o'
  end.

(** [o[k] = v] for a plain object [o] and a number [v]. An own property is
    overwritten in place. Without one, the key ["__proto__"] is the accessor
    that [o] inherits from [Object.prototype]: the assignment calls its
    setter, which ignores a value that is neither an object nor [null], and
    [o] is left as it is. Every other inherited member is a writable data
    property, so that for any other key a new own property is created. *)
Definition obj_set (o : StringMap) (k : string) (v : Z) : StringMap :=
  match obj_get o k with
  | Some _ => obj_update k v o
  | None =>
      if decide (k = "__proto__") then o
      else match array_index k with
           | Some n => obj_insert_index n k v o
           | None => o ++ [(k, v)]
           end
  end.

(** lodash's [uniq]: the first occurrence of each element, in order. *)
Fixpoint uniq_from (seen : list string) (l : list string) : list string :=
  match l with
  | [] => []
  | x :: l' =>
      if decide (x ∈ seen) then uniq_from seen l'
      else x :: uniq_from (x :: seen) l'
  end.

Definition uniq (l : list string) : list string := uniq_from [] l.

(** [Array.prototype.reduce] with the index passed to the callback. *)
Fixpoint reduce_index {A B : Type} (f : B → A → nat → B) (l : list A)
    (index : nat) (memo : B) : B :=
  match l with
  | [] => memo
  | x :: l' => reduce_index f l' (S index) (f memo x index)
  end.

(** The three lists of candidate strings and their concatenation. *)
Definition categoryStrings `{DataHelpers} (childComponents : list Child)
    (axis : Axis) : list string :=
  foldl (λ prev component,
           match getStringsFromCategories (props component) axis with
           | Some categoryData => prev ++ categoryData
           | None => prev
           end) [] childComponents.

Definition dataStrings `{DataHelpers} (childComponents : list Child)
    (axis : Axis) : list string :=
  foldl (λ prev component,
           match getStringsFromData (props component) axis with
           | Some stringData => prev ++ stringData
           | None => prev
           end) [] childComponents.

Definition candidateStrings `{AxisHelpers, DataHelpers}
    (childComponents : list Child) (axis : Axis) : list string :=
  let axisComponent := getAxisComponent childComponents axis in
  let tickStrings := getStringsFromAxes (props axisComponent) axis in
  tickStrings ++ categoryStrings childComponents axis
              ++ dataStrings childComponents axis.

(** [createStringMap]; [None] is [null]. *)
Definition createStringMap `{AxisHelpers, DataHelpers}
    (childComponents : list Child) (axis : Axis) : option StringMap :=
  let allStrings := uniq (candidateStrings childComponents axis) in
  if decide (length allStrings = 0%nat) then None
  else Some (reduce_index
               (λ memo string index, obj_set memo string (Z.of_nat index + 1))
               allStrings 0%nat []).

(** ** Calculated props *)

(** A scale: the function itself ([scale.x.call(null, v)]) and the result of
    its [tickFormat()] method, [None] when that result is falsy. *)
Record Scale := {
  call : Num → Num;
  tickFormat : option (Num → JsVal)
}.

Record CalculatedProps := {
  axisComponents : Axis → Child;
  calc_categories : Axis → option (list JsVal);
  calc_domain : Axis → Domain;
  scale : Axis → Scale;
  stringMap : Axis → option StringMap
}.

(** The result of a call that may raise a [TypeError]. *)
Inductive Outcome (A : Type) :=
  | Returns (a : A)
  | Throws.
Arguments Returns {A} a.
Arguments Throws {A}.

(** ** Ticks *)

(** The names of the members of [Object.prototype] (ECMAScript 2015 with its
    annex B), which every plain object inherits. *)
Definition Object_prototype : list string :=
  ["constructor"; "__defineGetter__"; "__defineSetter__"; "hasOwnProperty";
   "__lookupGetter__"; "__lookupSetter__"; "isPrototypeOf";
   "propertyIsEnumerable"; "toString"; "valueOf"; "__proto__";
   "toLocaleString"].

(** [stringMap[tick]]. The source evaluates it for string ticks only, under
    [containsOnlyStrings]. The read finds the own property of that name, or
    else the inherited member of that name, or else nothing. *)
Definition stringMap_at (stringMap : StringMap) (tick : JsVal) : JsVal :=
  match tick with
  | VStr s =>
      match obj_get stringMap s with
      | Some code => VNum (Qc_of_Z code)
      | None => if decide (s ∈ Object_prototype) then VInherited s else VUndef
      end
  | _ => VUndef
  end.

(** [getTicksFromData]; [None] is [undefined] or [null]. A property of a
    [null] string map is read when the category array is a non-empty array of
    strings. *)
Definition getTicksFromData (calculatedProps : CalculatedProps) (axis : Axis)
    : Outcome (option (list JsVal)) :=
  let stringMap := stringMap calculatedProps axis in
  let categoryArray := calc_categories calculatedProps axis in
  let ticksFromStringMap :=
    (λ stringMap, VNum ∘ Qc_of_Z <$> values stringMap) <$> stringMap in
  match categoryArray with
  | Some categoryArray =>
      if containsOnlyStrings categoryArray
      then match stringMap, categoryArray with
           | Some stringMap, _ =>
               Returns (Some (stringMap_at stringMap <$> categoryArray))
           | None, [] => Returns (Some [])
           | None, _ :: _ => Throws
           end
      else Returns (Some categoryArray)
  | None => Returns ticksFromStringMap
  end.

Definition getTicksFromAxis (calculatedProps : CalculatedProps) (axis : Axis)
    (component : Child) : option (list JsVal) :=
  match tickValues (props component) with
  | None => None
  | Some tickValues =>
      match stringMap calculatedProps axis with
      | Some stringMap =>
          if containsOnlyStrings tickValues
          then Some (stringMap_at stringMap <$> tickValues)
          else Some tickValues
      | None => Some tickValues
      end
  end.

(** [getTicks]: the right operand of [||] is evaluated only when the left one
    is [undefined]; an array, even an empty one, is truthy. *)
Definition getTicks (calculatedProps : CalculatedProps) (axis : Axis)
    (component : Child) : Outcome (option (list JsVal)) :=
  match getTicksFromAxis calculatedProps axis component with
  | Some ticks => Returns (Some ticks)
  | None => getTicksFromData calculatedProps axis
  end.

(** ** Tick formats *)

(** lodash's [identity] on a tick position. *)
Definition identity (x : Num) : JsVal := VNum x.

(** lodash's [sortBy(l, (n) => n)] on numbers. *)
Definition sortBy (l : list Z) : list Z := merge_sort Z.le l.

(** lodash's [invert]: from code to string, a later key overwriting an
    earlier one with the same code. *)
Definition invert (stringMap : StringMap) : gmap Z string :=
  foldl (λ result kv, <[kv.2 := kv.1]> result) ∅ stringMap.

Definition inverted_at (inverted : gmap Z string) (tick : Z) : JsVal :=
  match inverted !! tick with
  | Some s => VStr s
  | None => VUndef
  end.

(** [dataTicks[x]] for a number [x]: the element at [x] when [x] is an index
    of the array, and [undefined] otherwise. *)
Definition array_at (l : list JsVal) (x : Num) : JsVal :=
  if decide (Qden x = 1%positive ∧ 0 ≤ Qnum x)
  then default VUndef (l !! Z.to_nat (Qnum x))
  else VUndef.

(** The array [dataTicks] of the second branch of [getTickFormat], and the
    closure [(x) => dataTicks[x]] that the branch returns. *)
Definition dataTicks (stringMap : StringMap) : list JsVal :=
  let tickValueArray := sortBy (values stringMap) in
  let invertedStringMap := invert stringMap in
  let dataNames := inverted_at invertedStringMap <$> tickValueArray in
  [VStr ""] ++ dataNames ++ [VStr ""].

Definition stringMapFormat (stringMap : StringMap) : Num → JsVal :=
  λ x, array_at (dataTicks stringMap) x.

Definition getTickFormat (component : Child) (axis : Axis)
    (calculatedProps : CalculatedProps) : Num → JsVal :=
  let tickValues := tickValues (props component) in
  let stringMap := stringMap calculatedProps axis in
  if match tickValues with
     | Some tickValues => negb (containsStrings tickValues)
     | None => false
     end
  then identity
  else match stringMap with
       | Some stringMap => stringMapFormat stringMap
       | None => default identity (tickFormat (scale calculatedProps axis))
       end.

(** ** getCategories *)

(** Binary64: precision 53, maximal exponent 1024. *)
Definition prec : Z := 53.
Definition emax : Z := 1024.

(** The double of an integer, rounded to the nearest, ties to even. *)
Definition double_of_Z (n : Z) : spec_float :=
  binary_normalize prec emax n 0 false.

(** The double that a number stands for: the nearest one, ties to even, which
    is the number itself when it is a double. The quotient of numerator and
    denominator is rounded once, as [SFdiv] rounds the quotient of two
    mantissas. *)
Definition to_double (q : Num) : spec_float :=
  let quotient (sign : bool) (n : positive) : spec_float :=
    let '(m, e, l) :=
      SFdiv_core_binary prec emax (Z.pos n) 0 (Z.pos (Qden q)) 0 in
    binary_round_aux prec emax sign m e l in
  match Qnum q with
  | Z0 => S754_zero false
  | Z.pos n => quotient false n
  | Z.neg n => quotient true n
  end.

(** The value of a double; the sign of a zero is dropped. *)
Definition of_double (x : spec_float) : JsVal :=
  match x with
  | S754_zero _ => VNum 0%Qc
  | S754_infinity negative => VInfinity negative
  | S754_nan => VNaN
  | S754_finite s m e =>
      VNum (Q2Qc (inject_Z (cond_Zopp s (Z.pos m)) * 2 ^ e)%Q)
  end.

(** lodash's [sum]: [0] for an empty array, and else the entries added from
    left to right, starting with the first. *)
Definition sum (arr : list Num) : spec_float :=
  match arr with
  | [] => S754_zero false
  | x :: xs =>
      foldl (λ result current, SFadd prec emax result (to_double current))
            (to_double x) xs
  end.

(** [sum(arr) / arr.length] for an inner array; [0 / 0] is [NaN]. *)
Definition mean (arr : JsVal) : JsVal :=
  match arr with
  | VArr _ a =>
      of_double (SFdiv prec emax (sum a) (double_of_Z (Z.of_nat (length a))))
  | _ => VNaN
  end.

(** [x === categories] for an element [x] of the accumulated array and the
    array [categories], given by its identity, or by [None] for the array
    that [map] has just created and that nothing can hold yet. Strict
    equality with an array is identity of the object: a primitive is never
    identical to it, and an array is when it is the same object. *)
Definition identical_to_array (x : JsVal) (categories : option Ref) : bool :=
  match x, categories with
  | VArr ref _, Some ref' => bool_decide (ref = ref')
  | _, _ => false
  end.

(** [prev.indexOf(categories)]. *)
Definition indexOf (prev : list JsVal) (categories : option Ref) : Z :=
  match list_find (λ x, identical_to_array x categories = true) prev with
  | Some (i, _) => Z.of_nat i
  | None => -1
  end.

(** The callback of the [reduce] in [getCategories]. The local [categories]
    is an array, by its identity and its entries: the fresh result of [map]
    for an array of arrays, and the array of the prop itself otherwise. *)
Definition addCategories (prev : list JsVal) (component : Child) : list JsVal :=
  let cats := categories (props component) in
  let categories :=
    match cats with
    | Some cats =>
        if isArrayOfArrays cats then Some (None, mean <$> cats)
        else Some (Some (categoriesRef (props component)), cats)
    | None => None
    end in
  match categories with
  | Some (ref, categories) =>
      if decide (indexOf prev ref = -1) then prev ++ categories else prev
  | None => prev
  end.

Definition getCategories (childComponents : list Child) : option (list JsVal) :=
  let groupedComponents := getDataComponents childComponents grouped in
  if decide (length groupedComponents = 0%nat) then None
  else
    let allCategories := foldl addCategories [] groupedComponents in
    if decide (length allCategories = 0%nat) then None else Some allCategories.

(** ** getAxisOffset *)

Record Offset := {
  offset_x : Num;
  offset_y : Num
}.

(** [a || b] for an optional number [a]: [undefined] and [0] are falsy. *)
Definition or_else (a : option Num) (b : Num) : Num :=
  match a with
  | Some v => if decide (v = 0%Qc) then b else v
  | None => b
  end.

Definition getAxisOffset `{AxisHelpers} (chartProps : ChartProps)
    (calculatedProps : CalculatedProps) : Offset :=
  let axisComponents := axisComponents calculatedProps in
  let domain := calc_domain calculatedProps in
  let scale := scale calculatedProps in
  let origin_x := num_max (Math_min (domain X).1 [(domain X).2]) 0%Qc in
  let origin_y := num_max (Math_min (domain Y).1 [(domain Y).2]) 0%Qc in
  let axisOrientations_x := getOrientation (axisComponents X) X in
  let axisOrientations_y := getOrientation (axisComponents Y) Y in
  let orientationOffset_x :=
    if decide (axisOrientations_y = "left") then 0%Qc else width chartProps in
  let orientationOffset_y :=
    if decide (axisOrientations_x = "bottom") then height chartProps else 0%Qc in
  let calculatedOffset_x :=
    Math_abs (orientationOffset_x - call (scale X) origin_x)%Qc in
  let calculatedOffset_y :=
    Math_abs (orientationOffset_y - call (scale Y) origin_y)%Qc in
  {| offset_x := or_else (offsetX (axisComponents X)) calculatedOffset_x;
     offset_y := or_else (offsetY (axisComponents Y)) calculatedOffset_y |}.

(** ** Vocabulary of the statements *)

(** The elements among the nodes of a child list, in order. *)
Definition elements (nodes : list ReactNode) : list Child :=
  omap (λ node, match node with NodeElement c => Some c | _ => None end) nodes.

Definition isAxis (axis : AxisType) (child : Child) : Prop :=
  getAxisType child = Some axis.

Definition isBar (child : Child) : Prop := role (type child) = Some "bar".

Definition isOther (child : Child) : Prop :=
  role (type child) ≠ Some "axis" ∧ role (type child) ≠ Some "bar".

Definition defaultAxis (defaultAxes : DefaultAxes) (axis : AxisType) : Child :=
  match axis with
  | Independent => independent defaultAxes
  | Dependent => dependent defaultAxes
  end.

(** The index of the first occurrence of [s] in [l]. *)
Fixpoint first_index (s : string) (l : list string) : option nat :=
  match l with
  | [] => None
  | x :: l' => if decide (x = s) then Some 0%nat else S <$> first_index s l'
  end.

(** The codes [1, ..., n]. *)
Definition codes (n : nat) : list Z := Z.of_nat <$> seq 1 n.

#[global] Instance isAxis_dec axis child : Decision (isAxis axis child).
Proof. unfold isAxis. apply _. Defined.
#[global] Instance isBar_dec child : Decision (isBar child).
Proof. unfold isBar. apply _. Defined.
#[global] Instance isOther_dec child : Decision (isOther child).
Proof. unfold isOther. apply _. Defined.

(** The endpoints that the children report for [axis], child by child. *)
Definition reportedEndpoints (childComponents : list Child) (axis : Axis)
    : list Num :=
  childComponents ≫= λ component,
    match type_getDomain (type component) (props component) axis with
    | Some childDomain => [childDomain.1; childDomain.2]
    | None => []
    end.

(** The strings [l] paired with the consecutive codes that follow [index]. *)
Definition numbered (index : nat) (l : list string) : StringMap :=
  zip l (Z.of_nat <$> seq (S index) (length l)).

(** The loop state [st] with the warnings [log] logged before its own. *)
Definition relog (log : list Warning) (st : Loop) : Loop :=
  {| counts := counts st; childComponents := childComponents st;
     warnings := log ++ warnings st |}.

(** ** Sample components *)

Definition sampleProps (dependentAxis : bool) : Props :=
  {| dependentAxis := dependentAxis; tickValues := None; categories := None;
     data := []; categoriesRef := 0%nat; props_offsetX := None;
     props_offsetY := None |}.

Definition reports (d : option Domain) : Props → Axis → option Domain := λ _ _, d.

Definition VictoryAxis : ComponentType :=
  {| role := Some "axis"; type_getDomain := reports None |}.
Definition VictoryBar : ComponentType :=
  {| role := Some "bar"; type_getDomain := reports None |}.
Definition VictoryLine : ComponentType :=
  {| role := Some "line"; type_getDomain := reports None |}.

(** A component class without a static [role]. *)
Definition Plain : ComponentType :=
  {| role := None; type_getDomain := reports None |}.

(** [React.createElement(type, props)]: the element has [type], [props],
    [key] and [ref], and no property [offsetX] or [offsetY] of its own. *)
Definition element (type : ComponentType) (props : Props) : Child :=
  {| type := type; props := props; offsetX := None; offsetY := None |}.

Definition sampleAxes : DefaultAxes :=
  {| independent := element VictoryAxis (sampleProps false);
     dependent := element VictoryAxis (sampleProps true) |}.

Definition chartOf (nodes : option (list ReactNode)) : ChartProps :=
  {| children := nodes; domain := None; width := Qc_of_Z 400;
     height := Qc_of_Z 300 |}.

(** A line component whose class reports the domain [d]. *)
Definition reporting (d : Domain) : Child :=
  element {| role := Some "line"; type_getDomain := reports (Some d) |}
          (sampleProps false).

(** Sample collaborators: the first axis of the wanted kind (the independent
    axis lies on [x]), the usual orientations, no padding and no reordering,
    and the strings among tick values, categories and data. *)
Definition axisTypeOf (axis : Axis) : AxisType :=
  match axis with X => Independent | Y => Dependent end.

Definition orientationOf (axis : Axis) : string :=
  match axis with X => "bottom" | Y => "left" end.

Definition stringsOf (l : list JsVal) : list string :=
  omap (λ v, match v with VStr s => Some s | _ => None end) l.

Definition sampleAxisHelpers : AxisHelpers :=
  {| getAxisComponent := λ childComponents axis,
       default (element VictoryAxis (sampleProps (bool_decide (axis = Y))))
               (head (filter (isAxis (axisTypeOf axis)) childComponents));
     getOrientation := λ _ axis, orientationOf axis;
     getAxisOrientations := λ _ axis, orientationOf axis |}.

Definition sampleDomainHelpers : DomainHelpers :=
  {| padDomain := λ domain _ _, domain;
     orientDomain := λ domain _ _, domain |}.

Definition sampleDataHelpers : DataHelpers :=
  {| getStringsFromAxes := λ props _, stringsOf (default [] (tickValues props));
     getStringsFromCategories := λ props _, stringsOf <$> categories props;
     getStringsFromData := λ props axis,
       Some (stringsOf ((match axis with X => fst | Y => snd end) <$> data props)) |}.

(** An axis with string ticks and a bar with string categories and data. *)
Definition stringAxis : Child :=
  element VictoryAxis
    {| dependentAxis := false; tickValues := Some [VStr "b"; VStr "a"];
       categories := None; data := []; categoriesRef := 0%nat;
       props_offsetX := None; props_offsetY := None |}.

Definition stringBar : Child :=
  element VictoryBar
    {| dependentAxis := false; tickValues := None;
       categories := Some [VStr "a"; VStr "c"];
       data := [(VStr "d", VNum 1%Qc); (VStr "b", VNum (Qc_of_Z 2))];
       categoriesRef := 1%nat; props_offsetX := None; props_offsetY := None |}.

(** The string map [{a: 1, b: 2, c: 3}], calculated props that hold it for
    both axes and nothing else of interest, and an axis with given tick
    values. *)
Definition abc : StringMap := [("a", 1); ("b", 2); ("c", 3)].

Definition sampleScale : Scale :=
  {| call := λ v, (Qc_of_Z 40 * v + Qc_of_Z 50)%Qc; tickFormat := None |}.

Definition calculatedWith (stringMap : option StringMap)
    (categories : option (list JsVal)) : CalculatedProps :=
  {| axisComponents := λ axis,
       element VictoryAxis (sampleProps (bool_decide (axis = Y)));
     calc_categories := λ _, categories;
     calc_domain := λ _, (Qc_of_Z (-2), Qc_of_Z 10);
     scale := λ _, sampleScale;
     stringMap := λ _, stringMap |}.

Definition axisWithTicks (tickValues : option (list JsVal)) : Child :=
  element VictoryAxis
    {| dependentAxis := false; tickValues := tickValues; categories := None;
       data := []; categoriesRef := 0%nat; props_offsetX := None;
       props_offsetY := None |}.

(** Two grouped components: one with the categories [[[1, 3], [5, 7]]] and
    one with the categories [[2, 6]]. The four arrays are four objects. *)
Definition barWithCategories (ref : Ref) (categories : list JsVal) : Child :=
  element VictoryBar
    {| dependentAxis := false; tickValues := None;
       categories := Some categories; data := []; categoriesRef := ref;
       props_offsetX := None; props_offsetY := None |}.

Definition nestedBar : Child :=
  barWithCategories 1%nat
    [VArr 2%nat [Qc_of_Z 1; Qc_of_Z 3]; VArr 3%nat [Qc_of_Z 5; Qc_of_Z 7]].

Definition flatBar : Child :=
  barWithCategories 4%nat [VNum (Qc_of_Z 2); VNum (Qc_of_Z 6)].

(** Two grouped components that share an array: the first entry of the
    categories of the one is the array that the other has as its categories,
    [[[1, 2], "x"]] and [[1, 2]]. *)
Definition mixedBar : Child :=
  barWithCategories 5%nat [VArr 6%nat [Qc_of_Z 1; Qc_of_Z 2]; VStr "x"].

Definition sharingBar : Child :=
  barWithCategories 6%nat [VNum (Qc_of_Z 1); VNum (Qc_of_Z 2)].

(** An axis whose tick values are the strings [a], [__proto__] and [b]. *)
Definition protoAxis : Child :=
  element VictoryAxis
    {| dependentAxis := false;
       tickValues := Some [VStr "a"; VStr "__proto__"; VStr "b"];
       categories := None; data := []; categoriesRef := 0%nat;
       props_offsetX := None; props_offsetY := None |}.

(** An axis element with the prop [offsetX], and calculated props with a
    given [x] axis component. *)
Definition axisWithOffsetX (override : option Num) : Child :=
  element VictoryAxis
    {| dependentAxis := false; tickValues := None; categories := None;
       data := []; categoriesRef := 0%nat; props_offsetX := override;
       props_offsetY := None |}.

Definition calculatedWithAxis (xAxis : Child) : CalculatedProps :=
  {| axisComponents := λ axis,
       match axis with
       | X => xAxis
       | Y => element VictoryAxis (sampleProps true)
       end;
     calc_categories := λ _, None;
     calc_domain := λ _, (Qc_of_Z (-2), Qc_of_Z 10);
     scale := λ _, sampleScale;
     stringMap := λ _, None |}.

(** Calculated props whose [x] axis component carries the explicit offset
    [offsetX]. *)
Definition calculatedWithOffsetX (offsetX : option Num) : CalculatedProps :=
  {| axisComponents := λ axis,
       {| type := VictoryAxis; props := sampleProps (bool_decide (axis = Y));
          offsetX := offsetX; offsetY := None |};
     calc_categories := λ _, None;
     calc_domain := λ _, (Qc_of_Z (-2), Qc_of_Z 10);
     scale := λ _, sampleScale;
     stringMap := λ _, None |}.

(** The categories of a grouped component as [getCategories] adds them: the
    means of the inner arrays of an array of arrays, the entries of any other
    array, nothing without the prop. *)
Definition categoriesOf (component : Child) : list JsVal :=
  match categories (props component) with
  | Some cats => if isArrayOfArrays cats then mean <$> cats else cats
  | None => []
  end.

(** A declared child list: a bar, a text node, a dependent axis, a second bar
    and a second dependent axis. *)
Definition sampleNodes : list ReactNode :=
  [NodeElement (element VictoryBar (sampleProps false));
   NodeText "caption";
   NodeElement (element VictoryAxis (sampleProps true));
   NodeElement (element VictoryBar (sampleProps true));
   NodeElement (element VictoryAxis (sampleProps true))].

(** ** Vocabulary of the further properties *)

(** The chart props with another child list. *)
Definition withChildren (chartProps : ChartProps)
    (nodes : option (list ReactNode)) : ChartProps :=
  {| children := nodes; domain := domain chartProps;
     width := width chartProps; height := height chartProps |}.

(** The default axes of the kinds that no declared element has, the
    independent one first. *)
Definition missingAxes (defaultAxes : DefaultAxes) (declared : list Child)
    : list Child :=
  (if decide (filter (isAxis Independent) declared = [])
   then [independent defaultAxes] else [])
  ++ (if decide (filter (isAxis Dependent) declared = [])
      then [dependent defaultAxes] else []).

(** The number of elements of a kind beyond the first. *)
Definition surplus {A} (l : list A) : nat := (length l - 1)%nat.

#[global] Instance Warning_eq_dec : EqDecision Warning.
Proof. solve_decision. Defined.

(** The array objects among the values [l]. *)
Definition arrayRefs (l : list JsVal) : list Ref :=
  omap (λ v, match v with VArr ref _ => Some ref | _ => None end) l.


(** The calculated props with the two entries of each domain swapped, as an
    orientation that flips a domain does. *)
Definition flipDomains (calculatedProps : CalculatedProps) : CalculatedProps :=
  {| axisComponents := axisComponents calculatedProps;
     calc_categories := calc_categories calculatedProps;
     calc_domain := λ axis,
       ((calc_domain calculatedProps axis).2, (calc_domain calculatedProps axis).1);
     scale := scale calculatedProps;
     stringMap := stringMap calculatedProps |}.

(** * Properties *)

Example getChildComponents_sample :
  getChildComponents
    (chartOf (Some [NodeElement (element VictoryBar (sampleProps false));
                    NodeText "caption";
                    NodeElement (element VictoryAxis (sampleProps true));
                    NodeElement (element VictoryBar (sampleProps true));
                    NodeElement (element VictoryAxis (sampleProps true))]))
    sampleAxes []
  = Some ([element VictoryBar (sampleProps false);
           element VictoryAxis (sampleProps true);
           independent sampleAxes],
          [ComponentLimitWarning "bar"; AxisLimitWarning]).
Proof. vm_compute. reflexivity. Qed.

(** ** The loop of getChildComponents *)

Lemma forEach_app nodes1 nodes2 st :
  forEach (nodes1 ++ nodes2) st = forEach nodes1 st ≫= forEach nodes2.
Proof.
  revert st. induction nodes1 as [|node nodes1 IH]; intros st; simpl; [done|].
  destruct (visit st node) as [st'|]; simpl; [apply IH | done].
Qed.

Lemma visit_not_element st node :
  (∀ c, node ≠ NodeElement c) → visit st node = Some st.
Proof. intros Hnode. destruct node; [done | done |]. by destruct (Hnode c). Qed.

Lemma elements_app nodes1 nodes2 :
  elements (nodes1 ++ nodes2) = elements nodes1 ++ elements nodes2.
Proof. apply omap_app. Qed.

Lemma getAxisType_Some child axis :
  getAxisType child = Some axis → role (type child) = Some "axis".
Proof.
  unfold getAxisType. destruct (role (type child)) as [r|]; [|done].
  case_decide; [by subst | done].
Qed.

Lemma getAxisType_None child :
  getAxisType child = None → role (type child) ≠ Some "axis".
Proof.
  unfold getAxisType. intros Hnone Hrole. rewrite Hrole in Hnone.
  by rewrite decide_True in Hnone.
Qed.

Lemma propKey_eq_iff (r : option string) (k : string) :
  k ≠ "undefined" → propKey r = k ↔ r = Some k.
Proof.
  intros Hk. destruct r as [r|]; simpl; [|naive_solver].
  split; [by intros -> | by intros [= ->]].
Qed.

(** What the counters know after the elements [declared] have been visited. *)
Record counts_inv (declared : list Child) (counts : Counts) : Prop := {
  inv_axis :
    match counts !! "axis" with
    | None => ∀ axis, filter (isAxis axis) declared = []
    | Some (CAxes i d) =>
        i = Z.of_nat (length (filter (isAxis Independent) declared)) ∧
        d = Z.of_nat (length (filter (isAxis Dependent) declared))
    | Some (CNum _) => False
    end;
  inv_bar :
    match counts !! "bar" with
    | None => filter isBar declared = []
    | Some (CNum n) => n = Z.of_nat (length (filter isBar declared)) ∧ 1 ≤ n
    | Some (CAxes _ _) => False
    end;
  inv_num : ∀ k, k ≠ "axis" →
    match counts !! k with
    | None => True
    | Some (CNum n) => 1 ≤ n
    | Some (CAxes _ _) => False
    end
}.

(** What the array holds after the elements [declared] have been visited. *)
Record kept_inv (declared kept : list Child) : Prop := {
  kept_axis : ∀ axis,
    filter (isAxis axis) kept = take 1 (filter (isAxis axis) declared);
  kept_bar : filter isBar kept = take 1 (filter isBar declared);
  kept_other : filter isOther kept = filter isOther declared
}.

Lemma take_1_snoc {A} (l : list A) (x : A) :
  take 1 (l ++ [x]) = if decide (l = []) then [x] else take 1 l.
Proof. destruct l; by simpl. Qed.

Lemma filter_snoc {A} (P : A → Prop) `{∀ x, Decision (P x)} (l : list A) (x : A) :
  filter P (l ++ [x]) = filter P l ++ (if decide (P x) then [x] else []).
Proof.
  rewrite filter_app, filter_cons, filter_nil. by case_decide.
Qed.

Lemma isAxis_not_bar axis child : isAxis axis child → ¬ isBar child.
Proof. intros Ha Hb. apply getAxisType_Some in Ha. unfold isBar in Hb. congruence. Qed.

Lemma isAxis_not_other axis child : isAxis axis child → ¬ isOther child.
Proof. intros Ha [Hb _]. by apply getAxisType_Some in Ha. Qed.

Lemma isBar_not_axis axis child : isBar child → ¬ isAxis axis child.
Proof. intros Hb Ha. by eapply isAxis_not_bar. Qed.

Lemma isBar_not_other child : isBar child → ¬ isOther child.
Proof. by intros Hb [_ Hn]. Qed.

Ltac axis_case :=
  first [ rewrite decide_True by (unfold isAxis; congruence)
        | rewrite decide_False by (unfold isAxis; congruence) ].

Lemma addChild_axis declared counts child axis :
  getAxisType child = Some axis → counts_inv declared counts →
  ∃ counts', addChild counts child = Some counts' ∧
             counts_inv (declared ++ [child]) counts'.
Proof.
  intros Haxis [Hax Hbar Hnum].
  assert (Hrole := getAxisType_Some _ _ Haxis).
  assert (Hnotbar : ¬ isBar child) by (by eapply isAxis_not_bar).
  unfold addChild. rewrite Haxis, Hrole. simpl.
  assert (Hcount : ∀ i d,
    i = Z.of_nat (length (filter (isAxis Independent) declared)) →
    d = Z.of_nat (length (filter (isAxis Dependent) declared)) →
    ∀ counts0, counts0 !! "bar" = counts !! "bar" →
      (∀ k, k ≠ "axis" → counts0 !! k = counts !! k) →
      counts_inv (declared ++ [child]) (<["axis" := axisBump axis i d]> counts0)).
  { intros i d -> -> counts0 Hb Hk. split.
    - rewrite lookup_insert_eq. rewrite !filter_snoc, !length_app.
      destruct axis; simpl; do 2 axis_case; simpl; lia.
    - rewrite lookup_insert_ne by done. rewrite Hb.
      rewrite filter_snoc, decide_False, app_nil_r by done. done.
    - intros k Hne. rewrite lookup_insert_ne by done. rewrite Hk by done.
      by apply Hnum. }
  destruct (counts !! "axis") as [[n|i d]|] eqn:Hlook; simpl.
  - done.
  - rewrite Hlook. eexists; split; [done|]. destruct Hax. by apply Hcount.
  - rewrite lookup_insert_eq. eexists; split; [done|].
    apply Hcount.
    + by rewrite (Hax Independent).
    + by rewrite (Hax Dependent).
    + by rewrite lookup_insert_ne.
    + intros k Hne. by rewrite lookup_insert_ne.
Qed.

Lemma propKey_not_axis child :
  getAxisType child = None → propKey (role (type child)) ≠ "axis".
Proof.
  intros Hnone Hkey. apply propKey_eq_iff in Hkey; [|done].
  by apply getAxisType_None in Hnone.
Qed.

Lemma isBar_propKey child : isBar child ↔ propKey (role (type child)) = "bar".
Proof. unfold isBar. by rewrite propKey_eq_iff. Qed.

Lemma addChild_no_axis declared counts child :
  getAxisType child = None → counts_inv declared counts →
  ∃ counts', addChild counts child = Some counts' ∧
             counts_inv (declared ++ [child]) counts'.
Proof.
  intros Hnone [Hax Hbar Hnum].
  assert (Hkey := propKey_not_axis _ Hnone).
  assert (Hnotaxis : ∀ axis, ¬ isAxis axis child)
    by (unfold isAxis; congruence).
  unfold addChild. rewrite Hnone.
  set (ty := propKey (role (type child))) in *.
  assert (Hcount : ∀ n counts0,
    1 ≤ n →
    (ty = "bar" → n = Z.of_nat (length (filter isBar declared)) + 1) →
    (∀ k, k ≠ ty → counts0 !! k = counts !! k) →
    counts_inv (declared ++ [child]) (<[ty := CNum n]> counts0)).
  { intros n counts0 Hn Hb Hk. split.
    - rewrite lookup_insert_ne, Hk by done.
      destruct (counts !! "axis") as [[?|i d]|]; [done| |].
      + by rewrite !filter_snoc, !decide_False, !app_nil_r.
      + intros axis. by rewrite filter_snoc, decide_False, app_nil_r.
    - destruct (decide (ty = "bar")) as [Heq|Hne].
      + rewrite Heq, lookup_insert_eq. split; [|done].
        rewrite filter_snoc, length_app, decide_True by (by apply isBar_propKey).
        simpl. specialize (Hb Heq). lia.
      + rewrite lookup_insert_ne, Hk by done.
        rewrite filter_snoc, decide_False, app_nil_r; [done|].
        by rewrite isBar_propKey.
    - intros k Hne. destruct (decide (k = ty)) as [->|Hne'].
      + by rewrite lookup_insert_eq.
      + rewrite lookup_insert_ne, Hk by done. by apply Hnum. }
  specialize (Hnum ty Hkey).
  destruct (counts !! ty) as [[n|i d]|] eqn:Hlook; simpl; [| done |].
  - assert ((n =? 0) = false) as -> by lia. simpl. rewrite Hlook.
    eexists; split; [done|]. apply Hcount; [lia | | done].
    intros Heq. rewrite Heq in Hlook. rewrite Hlook in Hbar. lia.
  - rewrite lookup_insert_eq. eexists; split; [done|].
    apply Hcount; [lia | | ].
    + intros Heq. rewrite Heq in Hlook. rewrite Hlook in Hbar.
      by rewrite Hbar.
    + intros k Hne. by rewrite lookup_insert_ne.
Qed.

Lemma addChild_inv declared counts child :
  counts_inv declared counts →
  ∃ counts', addChild counts child = Some counts' ∧
             counts_inv (declared ++ [child]) counts'.
Proof.
  destruct (getAxisType child) as [axis|] eqn:Haxis.
  - by apply addChild_axis with axis.
  - by apply addChild_no_axis.
Qed.

Lemma leb_length {A} (l : list A) :
  (1 <=? Z.of_nat (length l)) = bool_decide (l ≠ []).
Proof.
  destruct l as [|x l]; [done|].
  rewrite bool_decide_eq_true_2 by done. apply Z.leb_le. simpl. lia.
Qed.

(** [limitReached] in terms of the elements visited so far. *)
Lemma limitReached_axis declared counts child axis :
  isAxis axis child → counts_inv declared counts →
  limitReached counts child = bool_decide (filter (isAxis axis) declared ≠ []).
Proof.
  intros Haxis [Hax _ _]. unfold limitReached.
  rewrite Haxis, (getAxisType_Some _ _ Haxis). simpl.
  destruct (counts !! "axis") as [[n|i d]|]; simpl; [done| |].
  - destruct Hax as [-> ->]. destruct axis; simpl; apply leb_length.
  - rewrite bool_decide_eq_false_2; [done|]. intros Hne. by apply Hne.
Qed.

Lemma limitReached_bar declared counts child :
  isBar child → counts_inv declared counts →
  limitReached counts child = bool_decide (filter isBar declared ≠ []).
Proof.
  intros Hb [_ Hbar _]. unfold limitReached.
  assert (getAxisType child = None) as ->.
  { destruct (getAxisType child) eqn:E; [|done]. by destruct (isAxis_not_bar _ _ E). }
  rewrite Hb. simpl.
  destruct (counts !! "bar") as [[n|i d]|]; simpl; [| done |].
  - destruct Hbar as [-> Hn].
    assert ((Z.of_nat (length (filter isBar declared)) =? 0) = false) as -> by lia.
    simpl. apply leb_length.
  - by rewrite Hbar.
Qed.

Lemma limitReached_other counts child :
  isOther child → limitReached counts child = false.
Proof.
  intros [Ha Hb]. unfold limitReached.
  assert (getAxisType child = None) as ->.
  { destruct (getAxisType child) eqn:E; [|done]. by apply getAxisType_Some in E. }
  rewrite decide_False by done. by destruct (negb _).
Qed.

Section first_kept.
Context {A : Type} (P : A → Prop) `{∀ x, Decision (P x)}.
Implicit Types declared kept : list A.

Lemma first_kept_push declared kept x :
  filter P kept = take 1 (filter P declared) →
  P x → filter P declared = [] →
  filter P (kept ++ [x]) = take 1 (filter P (declared ++ [x])).
Proof.
  intros Hk Hx Hnil. rewrite !filter_snoc, !decide_True by done.
  by rewrite Hk, Hnil.
Qed.

Lemma first_kept_drop declared kept x :
  filter P kept = take 1 (filter P declared) →
  filter P declared ≠ [] →
  filter P kept = take 1 (filter P (declared ++ [x])).
Proof.
  intros Hk Hne. rewrite filter_snoc. case_decide.
  - by rewrite take_1_snoc, decide_False.
  - by rewrite app_nil_r.
Qed.

Lemma first_kept_skip declared kept x :
  filter P kept = take 1 (filter P declared) → ¬ P x →
  filter P (kept ++ [x]) = take 1 (filter P (declared ++ [x])).
Proof.
  intros Hk Hx. by rewrite !filter_snoc, !decide_False, !app_nil_r.
Qed.

Lemma first_kept_same declared kept x :
  filter P kept = take 1 (filter P declared) → ¬ P x →
  filter P kept = take 1 (filter P (declared ++ [x])).
Proof.
  intros Hk Hx. by rewrite !filter_snoc, !decide_False, !app_nil_r.
Qed.
End first_kept.

Lemma child_cases child :
  (∃ axis, isAxis axis child) ∨ isBar child ∨ isOther child.
Proof.
  destruct (getAxisType child) as [axis|] eqn:Haxis; [left; by exists axis|].
  right. destruct (decide (isBar child)); [by left | right].
  split; [by apply getAxisType_None | done].
Qed.

Lemma isOther_not_axis axis child : isOther child → ¬ isAxis axis child.
Proof. intros Ho Ha. by eapply isAxis_not_other. Qed.

Lemma isOther_not_bar child : isOther child → ¬ isBar child.
Proof. intros Ho Hb. by eapply isBar_not_other. Qed.

Lemma isAxis_other_axis axis axis' child :
  isAxis axis child → axis' ≠ axis → ¬ isAxis axis' child.
Proof. unfold isAxis. congruence. Qed.

(** One element more: the array after the callback has run on [child]. *)
Lemma kept_step declared counts kept child :
  counts_inv declared counts → kept_inv declared kept →
  kept_inv (declared ++ [child])
    (if limitReached counts child then kept else kept ++ [child]).
Proof.
  intros Hc [Hax Hbar Hother].
  destruct (child_cases child) as [[axis Ha]|[Hb|Ho]].
  - rewrite (limitReached_axis declared _ _ axis) by done.
    case_bool_decide as Hlim; split.
    + intros axis'. destruct (decide (axis' = axis)) as [->|Hne].
      * by apply first_kept_drop.
      * apply first_kept_same; [done|]. by eapply isAxis_other_axis.
    + apply first_kept_same; [done|]. by eapply isAxis_not_bar.
    + rewrite filter_snoc, decide_False, app_nil_r; [done|].
      by eapply isAxis_not_other.
    + intros axis'. destruct (decide (axis' = axis)) as [->|Hne].
      * apply first_kept_push; [done..|]. by destruct (filter _ declared); [|destruct Hlim].
      * apply first_kept_skip; [done|]. by eapply isAxis_other_axis.
    + apply first_kept_skip; [done|]. by eapply isAxis_not_bar.
    + rewrite !filter_snoc, !decide_False, !app_nil_r; [done|..];
        by eapply isAxis_not_other.
  - rewrite (limitReached_bar declared) by done.
    case_bool_decide as Hlim; split.
    + intros axis. apply first_kept_same; [done|]. by apply isBar_not_axis.
    + by apply first_kept_drop.
    + rewrite filter_snoc, decide_False, app_nil_r; [done|].
      by apply isBar_not_other.
    + intros axis. apply first_kept_skip; [done|]. by apply isBar_not_axis.
    + apply first_kept_push; [done..|]. by destruct (filter _ declared); [|destruct Hlim].
    + rewrite !filter_snoc, !decide_False, !app_nil_r; [done|..];
        by apply isBar_not_other.
  - rewrite limitReached_other by done. split.
    + intros axis. apply first_kept_skip; [done|]. by apply isOther_not_axis.
    + apply first_kept_skip; [done|]. by apply isOther_not_bar.
    + by rewrite !filter_snoc, !decide_True, Hother.
Qed.

Lemma visit_inv declared st child :
  counts_inv declared (counts st) → kept_inv declared (childComponents st) →
  ∃ st', visit st (NodeElement child) = Some st' ∧
         counts_inv (declared ++ [child]) (counts st') ∧
         kept_inv (declared ++ [child]) (childComponents st').
Proof.
  intros Hc Hk. simpl.
  destruct (addChild_inv declared (counts st) child Hc) as (counts' & -> & Hc').
  simpl. eexists; split; [done|]. split; [done|].
  pose proof (kept_step declared (counts st) (childComponents st) child Hc Hk) as Hstep.
  by destruct (limitReached (counts st) child).
Qed.

Lemma forEach_inv nodes : ∀ declared st,
  counts_inv declared (counts st) → kept_inv declared (childComponents st) →
  ∃ st', forEach nodes st = Some st' ∧
         counts_inv (declared ++ elements nodes) (counts st') ∧
         kept_inv (declared ++ elements nodes) (childComponents st').
Proof.
  induction nodes as [|node nodes IH]; intros declared st Hc Hk.
  - exists st. by rewrite app_nil_r.
  - destruct node as [|s|child].
    + apply (IH declared st Hc Hk).
    + apply (IH declared st Hc Hk).
    + destruct (visit_inv declared st child Hc Hk) as (st1 & Hv & Hc1 & Hk1).
      destruct (IH _ st1 Hc1 Hk1) as (st' & Hf & Hc' & Hk').
      exists st'. change (elements (NodeElement child :: nodes))
        with (child :: elements nodes).
      rewrite <- (assoc_L (++)) in Hc', Hk'.
      split; [|done]. cbn [forEach]. by rewrite Hv.
Qed.

Lemma counts_inv_empty : counts_inv [] ∅.
Proof. split; [by rewrite lookup_empty | by rewrite lookup_empty |].
  intros k _. by rewrite lookup_empty. Qed.

Lemma kept_inv_empty : kept_inv [] [].
Proof. by split. Qed.

(** The loop never reaches one of the ill-typed counter updates: on every
    child list it runs to its end. *)
Lemma scan_total nodes log :
  ∃ st, scan nodes log = Some st ∧
        counts_inv (elements nodes) (counts st) ∧
        kept_inv (elements nodes) (childComponents st).
Proof.
  apply (forEach_inv nodes [] {| counts := ∅; childComponents := [];
                                 warnings := log |});
    [apply counts_inv_empty | apply kept_inv_empty].
Qed.

Lemma visit_relog log st node :
  visit (relog log st) node = relog log <$> visit st node.
Proof.
  destruct node as [| |child]; [done..|]. simpl.
  destruct (addChild (counts st) child) as [counts'|]; [|done]. simpl.
  destruct (limitReached (counts st) child); unfold relog; simpl;
    by rewrite ?(assoc_L (++)).
Qed.

Lemma forEach_relog nodes log : ∀ st,
  forEach nodes (relog log st) = relog log <$> forEach nodes st.
Proof.
  induction nodes as [|node nodes IH]; intros st; [done|]. cbn [forEach].
  rewrite visit_relog. destruct (visit st node) as [st'|]; [|done]. apply IH.
Qed.

Lemma scan_relog nodes log : scan nodes log = relog log <$> scan nodes [].
Proof.
  unfold scan. rewrite <- forEach_relog. unfold relog. simpl.
  by rewrite app_nil_r.
Qed.

Lemma getChildComponents_relog chartProps defaultAxes log :
  getChildComponents chartProps defaultAxes log
  = (λ r, (r.1, log ++ r.2)) <$> getChildComponents chartProps defaultAxes [].
Proof.
  unfold getChildComponents. destruct (children chartProps) as [nodes|].
  - rewrite scan_relog. destruct (scan nodes []) as [st|]; [|done]. done.
  - simpl. by rewrite app_nil_r.
Qed.

Lemma total_axis declared counts axis :
  counts_inv declared counts →
  total counts "axis" axis = Z.of_nat (length (filter (isAxis axis) declared)).
Proof.
  intros [Hax _ _]. unfold total.
  destruct (counts !! "axis") as [[n|i d]|]; [done| |].
  - destruct Hax as [-> ->]. by destruct axis.
  - by rewrite Hax.
Qed.

Ltac filter_cases :=
  repeat match goal with
         | H : filter ?P ?l = [] |- _ => rewrite ?H; clear H
         | H : filter ?P ?l ≠ [] |- _ => destruct (filter P l); [done|]; clear H
         end.

Lemma ltb_length {A} (l : list A) :
  (Z.of_nat (length l) <? 1) = bool_decide (l = []).
Proof.
  destruct l as [|x l]; [done|].
  rewrite bool_decide_eq_false_2 by done. apply Z.ltb_ge. simpl. lia.
Qed.

Lemma filter_singleton {A} (P : A → Prop) `{∀ x, Decision (P x)} (x : A) :
  filter P [x] = if decide (P x) then [x] else [].
Proof. rewrite filter_cons, filter_nil. by case_decide. Qed.

(** The array that [getChildComponents] returns: the kept elements, then the
    default axes of the kinds that no element has. *)
Lemma getChildComponents_children nodes chartProps defaultAxes log :
  children chartProps = Some nodes →
  ∃ st, scan nodes log = Some st ∧
    kept_inv (elements nodes) (childComponents st) ∧
    getChildComponents chartProps defaultAxes log
    = Some ((childComponents st
             ++ (if decide (filter (isAxis Independent) (elements nodes) = [])
                 then [independent defaultAxes] else []))
             ++ (if decide (filter (isAxis Dependent) (elements nodes) = [])
                 then [dependent defaultAxes] else []),
            warnings st).
Proof.
  intros Hnodes. destruct (scan_total nodes log) as (st & Hscan & Hc & Hk).
  exists st. split; [done|]. split; [done|].
  unfold getChildComponents. rewrite Hnodes, Hscan. simpl.
  rewrite !(total_axis _ _ _ Hc), !ltb_length.
  do 2 case_bool_decide; repeat case_decide; try done; by rewrite ?app_nil_r.
Qed.

(** C3. For every child list and every pair of default axes (an independent
    and a dependent one), [getChildComponents] returns a list that holds
    exactly one axis per axis kind, the first declared one if there is one and
    else the default of that kind; at most one child of role [bar], the first
    declared one; and every child of any other role, in the declared order. *)
Theorem getChildComponents_selection chartProps defaultAxes log :
  isAxis Independent (independent defaultAxes) →
  isAxis Dependent (dependent defaultAxes) →
  ∃ selected log',
    getChildComponents chartProps defaultAxes log = Some (selected, log') ∧
    let declared := elements (default [] (children chartProps)) in
    (∀ axis,
       filter (isAxis axis) selected
       = [default (defaultAxis defaultAxes axis)
                  (head (filter (isAxis axis) declared))]) ∧
    filter isBar selected = take 1 (filter isBar declared) ∧
    (length (filter isBar selected) ≤ 1)%nat ∧
    filter isOther selected = filter isOther declared.
Proof.
  intros Hi Hd.
  assert (Hid : ¬ isAxis Dependent (independent defaultAxes))
    by (by eapply isAxis_other_axis).
  assert (Hdi : ¬ isAxis Independent (dependent defaultAxes))
    by (by eapply isAxis_other_axis).
  assert (Hib := isAxis_not_bar _ _ Hi). assert (Hdb := isAxis_not_bar _ _ Hd).
  assert (Hio := isAxis_not_other _ _ Hi).
  assert (Hdo := isAxis_not_other _ _ Hd).
  destruct (children chartProps) as [nodes|] eqn:Hnodes; simpl.
  - destruct (getChildComponents_children nodes chartProps defaultAxes log Hnodes)
      as (st & _ & [Hax Hbar Hother] & ->).
    eexists _, _; split; [done|].
    assert (Hlen : (length (take 1 (filter isBar (elements nodes))) ≤ 1)%nat)
      by (rewrite length_take; lia).
    repeat split.
    + intros axis. rewrite !filter_app, Hax.
      destruct axis; simpl; repeat case_decide;
        rewrite ?filter_nil, ?filter_singleton, ?app_nil_r;
        repeat axis_case; by filter_cases.
    + rewrite !filter_app, Hbar.
      repeat case_decide; rewrite ?filter_nil, ?filter_singleton, ?app_nil_r;
        by rewrite ?decide_False, ?app_nil_r by done.
    + rewrite !filter_app, Hbar.
      repeat case_decide; rewrite ?filter_nil, ?filter_singleton, ?app_nil_r;
        by rewrite ?decide_False, ?app_nil_r by done.
    + rewrite !filter_app, Hother.
      repeat case_decide; rewrite ?filter_nil, ?filter_singleton, ?app_nil_r;
        by rewrite ?decide_False, ?app_nil_r by done.
  - unfold getChildComponents. rewrite Hnodes. eexists _, _; split; [done|].
    repeat split.
    + intros axis. rewrite !filter_cons, filter_nil.
      destruct axis; simpl; by repeat axis_case.
    + rewrite !filter_cons, filter_nil. by rewrite !decide_False.
    + rewrite !filter_cons, filter_nil. rewrite !decide_False by done. simpl. lia.
    + rewrite !filter_cons, filter_nil. by rewrite !decide_False.
Qed.

Lemma getChildComponents_selection_witness :
  isAxis Independent (independent sampleAxes) ∧
  isAxis Dependent (dependent sampleAxes) ∧
  ∃ selected log',
    getChildComponents (chartOf (Some sampleNodes)) sampleAxes [] = Some (selected, log') ∧
    let declared := elements sampleNodes in
    (∀ axis,
       filter (isAxis axis) selected
       = [default (defaultAxis sampleAxes axis)
                  (head (filter (isAxis axis) declared))]) ∧
    filter isBar selected = take 1 (filter isBar declared) ∧
    (length (filter isBar selected) ≤ 1)%nat ∧
    filter isOther selected = filter isOther declared.
Proof.
  split; [reflexivity|]. split; [reflexivity|].
  apply (getChildComponents_selection (chartOf (Some sampleNodes)) sampleAxes []);
    reflexivity.
Defined.

(** C8, as amended. A [null] child and a text child, the children without a
    [type], are skipped entirely: the loop ends in the same counters, the same
    array and the same warnings as without them, and so does
    [getChildComponents]. An element whose component class has no [role] is
    not skipped: the loop appends it to the array without a warning. *)
Theorem getChildComponents_skips_untyped nodes1 nodes2 s dom w h defaultAxes log :
  let chart nodes :=
    {| children := Some nodes; domain := dom; width := w; height := h |} in
  (scan (nodes1 ++ NodeNull :: nodes2) log = scan (nodes1 ++ nodes2) log ∧
   scan (nodes1 ++ NodeText s :: nodes2) log = scan (nodes1 ++ nodes2) log) ∧
  (getChildComponents (chart (nodes1 ++ NodeNull :: nodes2)) defaultAxes log
   = getChildComponents (chart (nodes1 ++ nodes2)) defaultAxes log ∧
   getChildComponents (chart (nodes1 ++ NodeText s :: nodes2)) defaultAxes log
   = getChildComponents (chart (nodes1 ++ nodes2)) defaultAxes log) ∧
  (∀ child, role (type child) = None →
     ∃ st st', scan nodes1 log = Some st ∧
       scan (nodes1 ++ [NodeElement child]) log = Some st' ∧
       childComponents st' = childComponents st ++ [child] ∧
       warnings st' = warnings st).
Proof.
  intros chart.
  assert (Hskip : ∀ node, (∀ c, node ≠ NodeElement c) →
    scan (nodes1 ++ node :: nodes2) log = scan (nodes1 ++ nodes2) log).
  { intros node Hnode. unfold scan. rewrite !forEach_app.
    destruct (forEach nodes1 _) as [st|]; [|done]. simpl.
    by rewrite visit_not_element. }
  assert (Hnull := Hskip NodeNull ltac:(done)).
  assert (Htext := Hskip (NodeText s) ltac:(done)).
  repeat split; try done.
  - unfold getChildComponents, chart. simpl. by rewrite Hnull.
  - unfold getChildComponents, chart. simpl. by rewrite Htext.
  - intros child Hrole.
    destruct (scan_total nodes1 log) as (st & Hscan & Hc & _).
    destruct (addChild_inv _ _ child Hc) as (counts' & Hadd & _).
    exists st. eexists. split; [done|].
    unfold scan in *. rewrite forEach_app, Hscan. simpl.
    rewrite Hadd. simpl. rewrite limitReached_other; [done|].
    unfold isOther. by rewrite Hrole.
Qed.

Lemma getChildComponents_skips_untyped_witness :
  ∃ st st', scan [NodeNull] [] = Some st ∧
    scan ([NodeNull] ++ [NodeElement (element Plain (sampleProps false))]) []
    = Some st' ∧
    childComponents st' = childComponents st ++ [element Plain (sampleProps false)] ∧
    warnings st' = warnings st.
Proof.
  apply (getChildComponents_skips_untyped [NodeNull] [] "" None 0%Qc 0%Qc
           sampleAxes []).
  reflexivity.
Defined.

(** C8, as stated, fails: an element whose component class has no role is
    part of the result. *)
Lemma getChildComponents_keeps_no_role :
  role (type (element Plain (sampleProps false))) = None ∧
  getChildComponents
    (chartOf (Some [NodeElement (element Plain (sampleProps false))]))
    sampleAxes []
  = Some ([element Plain (sampleProps false);
           independent sampleAxes; dependent sampleAxes], []).
Proof. split; [reflexivity|]. vm_compute. reflexivity. Qed.

(** ** getDomain *)

Lemma num_min_cases x y : (num_min x y = x ∧ (x ≤ y)%Qc) ∨ (num_min x y = y ∧ (y ≤ x)%Qc).
Proof.
  unfold num_min. case_decide; [by left | right]. split; [done|].
  by apply Qclt_le_weak, Qclt_nge.
Qed.

Lemma num_max_cases x y : (num_max x y = y ∧ (x ≤ y)%Qc) ∨ (num_max x y = x ∧ (y ≤ x)%Qc).
Proof.
  unfold num_max. case_decide; [by left | right]. split; [done|].
  by apply Qclt_le_weak, Qclt_nge.
Qed.

Lemma Math_min_spec xs : ∀ x,
  Math_min x xs ∈ x :: xs ∧ ∀ e, e ∈ x :: xs → (Math_min x xs ≤ e)%Qc.
Proof.
  unfold Math_min. induction xs as [|y xs IH]; intros x; simpl.
  - split; [by left|]. intros e ->%list_elem_of_singleton. apply Qcle_refl.
  - destruct (IH (num_min x y)) as [Hin Hle]. split.
    + apply elem_of_cons in Hin as [Hin|Hin]; [|by do 2 right].
      rewrite Hin. destruct (num_min_cases x y) as [[-> _]|[-> _]];
        [by left | by right; left].
    + intros e He. destruct (num_min_cases x y) as [[Hm Hxy]|[Hm Hxy]].
      * apply elem_of_cons in He as [->|He].
        { rewrite <- Hm at 2. apply Hle. by left. }
        apply elem_of_cons in He as [->|He]; [|by apply Hle; right].
        etrans; [|exact Hxy]. rewrite <- Hm at 2. apply Hle. by left.
      * apply elem_of_cons in He as [->|He].
        { etrans; [|exact Hxy]. rewrite <- Hm at 2. apply Hle. by left. }
        apply elem_of_cons in He as [->|He]; [|by apply Hle; right].
        rewrite <- Hm at 2. apply Hle. by left.
Qed.

Lemma Math_max_spec xs : ∀ x,
  Math_max x xs ∈ x :: xs ∧ ∀ e, e ∈ x :: xs → (e ≤ Math_max x xs)%Qc.
Proof.
  unfold Math_max. induction xs as [|y xs IH]; intros x; simpl.
  - split; [by left|]. intros e ->%list_elem_of_singleton. apply Qcle_refl.
  - destruct (IH (num_max x y)) as [Hin Hle]. split.
    + apply elem_of_cons in Hin as [Hin|Hin]; [|by do 2 right].
      rewrite Hin. destruct (num_max_cases x y) as [[-> _]|[-> _]];
        [by right; left | by left].
    + intros e He. destruct (num_max_cases x y) as [[Hm Hxy]|[Hm Hxy]].
      * apply elem_of_cons in He as [->|He].
        { etrans; [exact Hxy|]. rewrite <- Hm at 1. apply Hle. by left. }
        apply elem_of_cons in He as [->|He]; [|by apply Hle; right].
        rewrite <- Hm at 1. apply Hle. by left.
      * apply elem_of_cons in He as [->|He].
        { rewrite <- Hm at 1. apply Hle. by left. }
        apply elem_of_cons in He as [->|He]; [|by apply Hle; right].
        etrans; [exact Hxy|]. rewrite <- Hm at 1. apply Hle. by left.
Qed.

Lemma childDomains_reported childComponents axis :
  childDomains childComponents axis = reportedEndpoints childComponents axis.
Proof.
  unfold childDomains, reportedEndpoints.
  enough (∀ prev,
    foldl (λ prev component,
             match type_getDomain (type component) (props component) axis with
             | Some childDomain => prev ++ [childDomain.1; childDomain.2]
             | None => prev
             end) prev childComponents
    = prev ++ (childComponents ≫= λ component,
        match type_getDomain (type component) (props component) axis with
        | Some childDomain => [childDomain.1; childDomain.2]
        | None => []
        end)) as Hgen by apply (Hgen []).
  induction childComponents as [|c cs IH]; intros prev; simpl.
  - by rewrite app_nil_r.
  - rewrite IH. destruct (type_getDomain _ _ _); simpl.
    + by rewrite <- (assoc_L (++)).
    + done.
Qed.

(** C1. Without a domain override for the axis, the base domain of
    [getDomain] is [[0, 1]] when the children report no endpoint, and
    otherwise the pair of the least and the greatest of all reported
    endpoints; if no child reports a domain it is [[0, 1]]; and for a child
    reporting [[2, 8]] and one reporting [[-1, 5]] it is [[-1, 8]]. The base
    domain is what [getDomain] pads and orients. *)
Theorem baseDomain_of_children `{AxisHelpers, DomainHelpers}
    chartProps childComponents axis :
  domainOverride chartProps axis = None →
  let endpoints := reportedEndpoints childComponents axis in
  let base := baseDomain chartProps childComponents axis in
  (endpoints = [] → base = (0, 1)%Qc) ∧
  (endpoints ≠ [] →
     base.1 ∈ endpoints ∧ base.2 ∈ endpoints ∧
     ∀ e, e ∈ endpoints → (base.1 ≤ e ≤ base.2)%Qc) ∧
  ((∀ component, component ∈ childComponents →
      type_getDomain (type component) (props component) axis = None) →
   base = (0, 1)%Qc) ∧
  baseDomain chartProps
    [reporting (Qc_of_Z 2, Qc_of_Z 8); reporting (Qc_of_Z (-1), Qc_of_Z 5)] axis
  = (Qc_of_Z (-1), Qc_of_Z 8) ∧
  getDomain chartProps childComponents axis
  = orientDomain (padDomain base chartProps axis)
      (getAxisOrientations childComponents) axis.
Proof.
  intros Hnone endpoints base.
  assert (Hbase : base = match endpoints with
                         | [] => (0, 1)%Qc
                         | x :: xs => (Math_min x xs, Math_max x xs)
                         end).
  { unfold base, baseDomain, endpoints.
    by rewrite Hnone, childDomains_reported. }
  split; [|split; [|split; [|split]]].
  - intros Hnil. by rewrite Hbase, Hnil.
  - intros Hne. rewrite Hbase. destruct endpoints as [|x xs]; [done|]. simpl.
    destruct (Math_min_spec xs x) as [Hmin Hle].
    destruct (Math_max_spec xs x) as [Hmax Hge].
    split; [done|]. split; [done|]. intros e He. split; [by apply Hle | by apply Hge].
  - intros Hall. rewrite Hbase.
    assert (endpoints = []) as ->; [|done].
    unfold endpoints, reportedEndpoints. clear -Hall.
    induction childComponents as [|c cs IH]; [done|]. simpl.
    rewrite (Hall c) by (by left). simpl. apply IH.
    intros c' Hc'. apply Hall. by right.
  - unfold baseDomain. rewrite Hnone. by compute_done.
  - done.
Qed.

Lemma baseDomain_of_children_witness :
  let chartProps := chartOf None in
  let childComponents :=
    [reporting (Qc_of_Z 2, Qc_of_Z 8); reporting (Qc_of_Z (-1), Qc_of_Z 5)] in
  domainOverride chartProps X = None ∧
  @getDomain sampleAxisHelpers sampleDomainHelpers chartProps childComponents X
  = baseDomain chartProps childComponents X.
Proof.
  split; [reflexivity|].
  apply (@baseDomain_of_children sampleAxisHelpers sampleDomainHelpers
           (chartOf None)
           [reporting (Qc_of_Z 2, Qc_of_Z 8); reporting (Qc_of_Z (-1), Qc_of_Z 5)] X).
  reflexivity.
Defined.

Example getDomain_sample :
  @getDomain sampleAxisHelpers sampleDomainHelpers (chartOf None)
    [reporting (Qc_of_Z 2, Qc_of_Z 8); reporting (Qc_of_Z (-1), Qc_of_Z 5)] X
  = (Qc_of_Z (-1), Qc_of_Z 8).
Proof. by compute_done. Qed.

(** ** createStringMap *)

Lemma uniq_from_elem l : ∀ seen x,
  x ∈ uniq_from seen l ↔ x ∈ l ∧ x ∉ seen.
Proof.
  induction l as [|y l IH]; intros seen x; simpl.
  - rewrite elem_of_nil. naive_solver.
  - case_decide as Hy.
    + rewrite IH, elem_of_cons. naive_solver.
    + rewrite !elem_of_cons, IH, elem_of_cons. split; [naive_solver|].
      intros [[->|Hx] Hs]; [by left|].
      destruct (decide (x = y)) as [->|Hne]; [by left | right; naive_solver].
Qed.

Lemma uniq_from_NoDup l : ∀ seen, NoDup (uniq_from seen l).
Proof.
  induction l as [|y l IH]; intros seen; simpl; [constructor|].
  case_decide; [apply IH|]. constructor; [|apply IH].
  rewrite uniq_from_elem, elem_of_cons. naive_solver.
Qed.

Lemma uniq_elem l x : x ∈ uniq l ↔ x ∈ l.
Proof. unfold uniq. rewrite uniq_from_elem, elem_of_nil. naive_solver. Qed.

Lemma uniq_nil l : uniq l = [] ↔ l = [].
Proof.
  split; [|by intros ->]. destruct l as [|x l]; [done|].
  unfold uniq. simpl. done.
Qed.

Lemma uniq_length (l : list string) :
  length (uniq l) = size (list_to_set l : gset string).
Proof.
  rewrite <- (size_list_to_set (C := gset string)) by apply uniq_from_NoDup.
  f_equal. apply set_eq. intros x. by rewrite !elem_of_list_to_set, uniq_elem.
Qed.

Lemma first_index_is_Some s l : s ∈ l → is_Some (first_index s l).
Proof.
  induction l as [|x l IH]; [by intros ?%elem_of_nil|]. simpl.
  intros Hin. case_decide; [done|].
  apply elem_of_cons in Hin as [->|Hin]; [done|].
  destruct (IH Hin) as [a ->]. done.
Qed.

(** [uniq] keeps the order of the first occurrences. *)
Lemma uniq_from_order l : ∀ seen i j s t,
  uniq_from seen l !! i = Some s → uniq_from seen l !! j = Some t →
  ∃ a b, first_index s l = Some a ∧ first_index t l = Some b ∧
         (i < j ↔ a < b)%nat.
Proof.
  induction l as [|x l IH]; intros seen i j s t; simpl; [done|].
  case_decide as Hx.
  - intros Hi Hj.
    assert (s ≠ x).
    { intros ->. apply list_elem_of_lookup_2, uniq_from_elem in Hi. naive_solver. }
    assert (t ≠ x).
    { intros ->. apply list_elem_of_lookup_2, uniq_from_elem in Hj. naive_solver. }
    destruct (IH _ _ _ _ _ Hi Hj) as (a & b & -> & -> & Hab).
    rewrite !decide_False by congruence. exists (S a), (S b). simpl.
    split; [done|]. split; [done|]. lia.
  - assert (Hfresh : ∀ k u, uniq_from (x :: seen) l !! k = Some u → u ≠ x).
    { intros k u Hk ->. apply list_elem_of_lookup_2, uniq_from_elem in Hk.
      rewrite elem_of_cons in Hk. naive_solver. }
    destruct i as [|i], j as [|j]; simpl; intros Hi Hj; simplify_eq.
    + exists 0%nat, 0%nat. rewrite !decide_True by done. split; [done|]. split; [done|]. lia.
    + assert (Hne := Hfresh _ _ Hj).
      destruct (first_index_is_Some t l) as [b Hb].
      { apply list_elem_of_lookup_2, uniq_from_elem in Hj. naive_solver. }
      exists 0%nat, (S b). rewrite decide_True by done.
      rewrite decide_False by congruence. rewrite Hb. simpl.
      split; [done|]. split; [done|]. lia.
    + assert (Hne := Hfresh _ _ Hi).
      destruct (first_index_is_Some s l) as [a Ha].
      { apply list_elem_of_lookup_2, uniq_from_elem in Hi. naive_solver. }
      exists (S a), 0%nat. rewrite decide_False by congruence.
      rewrite decide_True by done. rewrite Ha. simpl.
      split; [done|]. split; [done|]. lia.
    + assert (Hs := Hfresh _ _ Hi). assert (Ht := Hfresh _ _ Hj).
      destruct (IH _ _ _ _ _ Hi Hj) as (a & b & -> & -> & Hab).
      rewrite !decide_False by congruence. exists (S a), (S b). simpl.
      split; [done|]. split; [done|]. lia.
Qed.

Lemma obj_get_None o k : obj_get o k = None ↔ k ∉ o.*1.
Proof.
  induction o as [|[k' v'] o IH]; simpl.
  - split; [intros _; apply not_elem_of_nil | done].
  - rewrite not_elem_of_cons. case_decide; naive_solver.
Qed.

Lemma obj_get_Some o k v :
  NoDup o.*1 → obj_get o k = Some v ↔ (k, v) ∈ o.
Proof.
  induction o as [|[k' v'] o IH]; simpl.
  - intros _. rewrite elem_of_nil. naive_solver.
  - intros [Hk' Hnd]%NoDup_cons. rewrite elem_of_cons. case_decide as Hk.
    + subst k'. split; [naive_solver|]. intros [?|Hin]; [naive_solver|].
      destruct Hk'. apply list_elem_of_fmap. by exists (k, v).
    + rewrite IH by done. naive_solver.
Qed.

Lemma obj_insert_index_perm n k v o : obj_insert_index n k v o ≡ₚ o ++ [(k, v)].
Proof.
  induction o as [|[k' v'] o IH]; simpl; [done|].
  destruct (array_index k') as [n'|].
  - destruct (n' <? n)%N.
    + by rewrite IH.
    + apply (Permutation_cons_append ((k', v') :: o)).
  - apply (Permutation_cons_append ((k', v') :: o)).
Qed.

Lemma obj_set_fresh o k v :
  k ∉ o.*1 → k ≠ "__proto__" → obj_set o k v ≡ₚ o ++ [(k, v)].
Proof.
  intros Hk%obj_get_None Hproto. unfold obj_set. rewrite Hk.
  rewrite decide_False by done.
  destruct (array_index k); [apply obj_insert_index_perm | done].
Qed.

(** The assignment to [__proto__] leaves an object without such an own
    property as it is. *)
Lemma obj_set_proto o v : "__proto__" ∉ o.*1 → obj_set o "__proto__" v = o.
Proof. intros Hk%obj_get_None. unfold obj_set. by rewrite Hk. Qed.

Lemma numbered_fst index l : (numbered index l).*1 = l.
Proof. unfold numbered. apply fst_zip. by rewrite length_fmap, length_seq. Qed.

Lemma numbered_snd index l :
  (numbered index l).*2 = Z.of_nat <$> seq (S index) (length l).
Proof. unfold numbered. apply snd_zip. by rewrite length_fmap, length_seq. Qed.

Lemma numbered_cons index x l :
  numbered index (x :: l) = (x, Z.of_nat index + 1) :: numbered (S index) l.
Proof.
  unfold numbered. simpl.
  by replace (Z.of_nat index + 1) with (Z.of_nat (S index)) by lia.
Qed.

Lemma numbered_lookup index l j s :
  l !! j = Some s → numbered index l !! j = Some (s, Z.of_nat (index + j) + 1).
Proof.
  intros Hj. unfold numbered. apply lookup_zip_with_Some.
  exists s, (Z.of_nat (index + j) + 1). split; [done|]. split; [done|].
  rewrite list_lookup_fmap, lookup_seq_lt by (by eapply lookup_lt_Some).
  simpl. f_equal. lia.
Qed.

(** Without the string [__proto__] nothing is filtered out. *)
Lemma numbered_assigned index l :
  "__proto__" ∉ l →
  filter (λ kv, kv.1 ≠ "__proto__") (numbered index l) = numbered index l.
Proof.
  revert index. induction l as [|x l IH]; intros index Hl; [done|].
  apply not_elem_of_cons in Hl as [Hx Hl].
  rewrite numbered_cons, filter_cons_True by (simpl; congruence).
  by rewrite IH.
Qed.

(** The loop of [createStringMap] over distinct strings: every string gets
    the code that follows its index, except [__proto__], which gets none. *)
Lemma reduce_index_numbered l : ∀ index memo,
  NoDup l → NoDup memo.*1 → (∀ s, s ∈ l → s ∉ memo.*1) →
  reduce_index (λ memo string index, obj_set memo string (Z.of_nat index + 1))
    l index memo
  ≡ₚ memo ++ filter (λ kv, kv.1 ≠ "__proto__") (numbered index l).
Proof.
  induction l as [|x l IH]; intros index memo Hl Hmemo Hfresh; simpl.
  - by rewrite app_nil_r.
  - apply NoDup_cons in Hl as [Hx Hl]. rewrite numbered_cons.
    destruct (decide (x = "__proto__")) as [->|Hproto].
    + rewrite obj_set_proto by (apply Hfresh; by left).
      rewrite filter_cons_False by (simpl; by intros []).
      apply IH; [done | done |]. intros s Hs. apply Hfresh. by right.
    + assert (Hset : obj_set memo x (Z.of_nat index + 1)
                     ≡ₚ memo ++ [(x, Z.of_nat index + 1)]).
      { apply obj_set_fresh; [|done]. apply Hfresh. by left. }
      rewrite filter_cons_True by done.
      rewrite IH; [| done | |].
      * by rewrite Hset, <- (assoc_L (++)).
      * rewrite Hset, fmap_app. simpl. apply NoDup_app. split; [done|].
        split; [|apply NoDup_singleton].
        intros k Hk ->%list_elem_of_singleton. apply (Hfresh x); [by left | done].
      * intros s Hs. rewrite Hset, fmap_app, elem_of_app. simpl.
        rewrite list_elem_of_singleton. intros [Hin| ->]; [|done].
        apply (Hfresh s); [by right | done].
Qed.

(** What a non-null string map is: a permutation of the distinct candidate
    strings other than [__proto__], each paired with the code that follows
    its index among the distinct strings. *)
Lemma createStringMap_numbered `{AxisHelpers, DataHelpers} childComponents axis :
  match createStringMap childComponents axis with
  | None => candidateStrings childComponents axis = []
  | Some stringMap =>
      candidateStrings childComponents axis ≠ [] ∧
      stringMap ≡ₚ filter (λ kv, kv.1 ≠ "__proto__")
                     (numbered 0 (uniq (candidateStrings childComponents axis)))
  end.
Proof.
  unfold createStringMap. case_decide as Hlen.
  - by apply uniq_nil, length_zero_iff_nil.
  - split.
    + intros Hnil. by rewrite Hnil in Hlen.
    + rewrite reduce_index_numbered; [done | apply uniq_from_NoDup | constructor |].
      intros s _. apply not_elem_of_nil.
Qed.

Lemma numbered_elem index l s c :
  (s, c) ∈ numbered index l →
  ∃ j, l !! j = Some s ∧ c = Z.of_nat (index + j) + 1.
Proof.
  intros [j Hj]%list_elem_of_lookup_1. exists j.
  unfold numbered in Hj. apply lookup_zip_with_Some in Hj as (s' & c' & [= <- <-] & Hs & Hc).
  split; [done|].
  rewrite list_lookup_fmap, lookup_seq_lt in Hc by (by eapply lookup_lt_Some).
  simpl in Hc. injection Hc as <-. lia.
Qed.

Lemma codes_elem n c : c ∈ codes n ↔ 1 ≤ c ≤ Z.of_nat n.
Proof.
  unfold codes. rewrite list_elem_of_fmap. setoid_rewrite elem_of_seq. split.
  - intros (i & -> & Hi). lia.
  - intros Hc. exists (Z.to_nat c). lia.
Qed.

Lemma filter_numbered index l :
  (filter (λ kv, kv.1 ≠ "__proto__") (numbered index l)).*1
  = filter (λ s, s ≠ "__proto__") l.
Proof.
  revert index. induction l as [|x l IH]; intros index; [done|].
  rewrite numbered_cons, !filter_cons. simpl.
  case_decide; simpl; by rewrite IH.
Qed.

Lemma filter_out_length (x : string) l :
  NoDup l → x ∈ l → length (filter (λ s, s ≠ x) l) = (length l - 1)%nat.
Proof.
  induction l as [|y l IH]; [by intros _ ?%elem_of_nil|].
  intros [Hy Hl]%NoDup_cons Hin. rewrite filter_cons.
  destruct (decide (y = x)) as [->|Hne].
  - rewrite decide_False by (by intros []). simpl.
    rewrite Nat.sub_0_r. f_equal.
    clear IH Hin Hl. induction l as [|z l IH]; [done|].
    apply not_elem_of_cons in Hy as [Hz Hy].
    rewrite filter_cons_True by done. by rewrite IH.
  - rewrite decide_True by done. simpl.
    apply elem_of_cons in Hin as [->|Hin]; [done|].
    rewrite IH by done. destruct l; [by apply elem_of_nil in Hin | simpl; lia].
Qed.

(** The entries of a non-null string map. *)
Lemma createStringMap_entries `{AxisHelpers, DataHelpers} childComponents axis
    stringMap' :
  createStringMap childComponents axis = Some stringMap' →
  let distinct := uniq (candidateStrings childComponents axis) in
  NoDup stringMap'.*1 ∧
  stringMap'.*1 ≡ₚ filter (λ s, s ≠ "__proto__") distinct ∧
  ∀ s c, obj_get stringMap' s = Some c ↔
         s ≠ "__proto__" ∧ ∃ i, distinct !! i = Some s ∧ c = Z.of_nat i + 1.
Proof.
  intros Hsm distinct.
  pose proof (createStringMap_numbered childComponents axis) as Hnum.
  rewrite Hsm in Hnum. destruct Hnum as [_ Hperm]. fold distinct in Hperm.
  assert (Hkeys : stringMap'.*1 ≡ₚ filter (λ s, s ≠ "__proto__") distinct).
  { by rewrite Hperm, filter_numbered. }
  assert (Hnd : NoDup stringMap'.*1).
  { rewrite Hkeys. apply NoDup_filter, uniq_from_NoDup. }
  split; [done|]. split; [done|]. intros s c.
  rewrite obj_get_Some by done. rewrite Hperm, list_elem_of_filter. simpl.
  split.
  - intros [Hs Hin]. split; [done|].
    apply numbered_elem in Hin as (j & Hj & ->). by exists j.
  - intros [Hs (i & Hi & ->)]. split; [done|].
    apply list_elem_of_lookup_2 with i. by apply (numbered_lookup 0).
Qed.

(** C2, the code at an input where the claim fails. For the candidate strings
    [a], [__proto__] and [b], three distinct strings, the map is
    [{a: 1, b: 3}]: the assignment of the code [2] to [__proto__] creates no
    property, and the codes are not [1, ..., N] for any [N]. The axis with
    these three tick values is an instance. *)
Theorem createStringMap_proto_gap :
  (∀ (axisHelpers : AxisHelpers) (dataHelpers : DataHelpers) childComponents axis,
     candidateStrings childComponents axis = ["a"; "__proto__"; "b"] →
     createStringMap childComponents axis = Some [("a", 1); ("b", 3)]) ∧
  @candidateStrings sampleAxisHelpers sampleDataHelpers [protoAxis] X
  = ["a"; "__proto__"; "b"] ∧
  @createStringMap sampleAxisHelpers sampleDataHelpers [protoAxis] X
  = Some [("a", 1); ("b", 3)] ∧
  size (list_to_set ["a"; "__proto__"; "b"] : gset string) = 3%nat ∧
  values [("a", 1); ("b", 3)] = [1; 3] ∧
  ∀ N, ¬ values [("a", 1); ("b", 3)] ≡ₚ codes N.
Proof.
  split.
  { intros axisHelpers dataHelpers childComponents axis Hcandidates.
    unfold createStringMap. rewrite Hcandidates. vm_compute. reflexivity. }
  split; [vm_compute; reflexivity|]. split; [vm_compute; reflexivity|].
  split; [by compute_done|]. split; [done|].
  intros N Hperm. simpl in Hperm.
  assert (H3 : 3 ∈ codes N) by (rewrite <- Hperm; by right; left).
  assert (H2 : 2 ∈ codes N) by (apply codes_elem; apply codes_elem in H3; lia).
  rewrite <- Hperm in H2.
  apply elem_of_cons in H2 as [?|H2]; [done|].
  apply elem_of_cons in H2 as [?|H2]; [done|]. by apply elem_of_nil in H2.
Qed.

(** X19. [createStringMap] returns [null] exactly when there is no candidate
    string. Otherwise the keys of the map are the candidate strings other
    than [__proto__], each once; the [i]-th distinct string (from 0, in the
    order of [uniq]) has the code [i + 1]; and codes ascend with the position
    of the first occurrence in the concatenation of tick, category and data
    strings. When [__proto__] is no candidate, the codes of the map are
    exactly [1, ..., N] for the number [N] of distinct candidate strings, each
    once; when it is one, the map holds only [N - 1] codes. *)
Theorem createStringMap_codes `{AxisHelpers, DataHelpers} childComponents axis :
  let candidates := candidateStrings childComponents axis in
  let N := size (list_to_set candidates : gset string) in
  candidates
  = getStringsFromAxes (props (getAxisComponent childComponents axis)) axis
    ++ categoryStrings childComponents axis ++ dataStrings childComponents axis ∧
  (createStringMap childComponents axis = None ↔ candidates = []) ∧
  ∀ stringMap, createStringMap childComponents axis = Some stringMap →
    NoDup stringMap.*1 ∧
    (∀ s, is_Some (obj_get stringMap s) ↔ s ∈ candidates ∧ s ≠ "__proto__") ∧
    (∀ i s, uniq candidates !! i = Some s → s ≠ "__proto__" →
            obj_get stringMap s = Some (Z.of_nat i + 1)) ∧
    (∀ s t c d,
       obj_get stringMap s = Some c → obj_get stringMap t = Some d →
       ∃ a b, first_index s candidates = Some a ∧
              first_index t candidates = Some b ∧
              (c < d ↔ (a < b)%nat)) ∧
    ("__proto__" ∉ candidates → values stringMap ≡ₚ codes N) ∧
    ("__proto__" ∈ candidates → length stringMap = (N - 1)%nat).
Proof.
  intros candidates N. split; [done|].
  pose proof (createStringMap_numbered childComponents axis) as Hnum.
  fold candidates in Hnum.
  split.
  { destruct (createStringMap childComponents axis); naive_solver. }
  intros stringMap Hsm. rewrite Hsm in Hnum. destruct Hnum as [Hne Hperm].
  destruct (createStringMap_entries childComponents axis stringMap Hsm)
    as (Hnd & Hkeys & Hget).
  fold candidates in Hkeys, Hget.
  split; [done|]. split; [|split; [|split; [|split]]].
  - intros s. split.
    + intros [c Hc]. apply Hget in Hc as (Hs & i & Hi & _). split; [|done].
      apply uniq_elem. by eapply list_elem_of_lookup_2.
    + intros [Hs%uniq_elem Hproto].
      apply list_elem_of_lookup_1 in Hs as [i Hi].
      exists (Z.of_nat i + 1). apply Hget. split; [done|]. by exists i.
  - intros i s Hi Hproto. apply Hget. split; [done|]. by exists i.
  - intros s t c d Hs Ht.
    apply Hget in Hs as (_ & i & Hi & ->). apply Hget in Ht as (_ & j & Hj & ->).
    destruct (uniq_from_order _ _ _ _ _ _ Hi Hj) as (a & b & Ha & Hb & Hab).
    exists a, b. split; [done|]. split; [done|]. lia.
  - intros Hproto. unfold values, codes, N.
    rewrite Hperm, numbered_assigned by (by rewrite uniq_elem).
    by rewrite numbered_snd, uniq_length.
  - intros Hproto. unfold N.
    rewrite <- (length_fmap fst), Hkeys, filter_out_length;
      [by rewrite uniq_length | apply uniq_from_NoDup | by apply uniq_elem].
Qed.

Example createStringMap_sample :
  @createStringMap sampleAxisHelpers sampleDataHelpers [stringAxis; stringBar] X
  = Some [("b", 1); ("a", 2); ("c", 3); ("d", 4)].
Proof. vm_compute. reflexivity. Qed.

(** Keys that are array indices come first when the object is enumerated;
    the codes still follow the first occurrences. *)
Example obj_set_enumeration :
  reduce_index (λ memo string index, obj_set memo string (Z.of_nat index + 1))
    ["b"; "10"; "2"] 0%nat []
  = [("2", 3); ("10", 2); ("b", 1)].
Proof. vm_compute. reflexivity. Qed.

(** A string that names an inherited member other than [__proto__] becomes an
    own property like any other string. *)
Example obj_set_inherited :
  reduce_index (λ memo string index, obj_set memo string (Z.of_nat index + 1))
    ["constructor"; "__proto__"; "toString"] 0%nat []
  = [("constructor", 1); ("toString", 3)].
Proof. vm_compute. reflexivity. Qed.

Lemma createStringMap_codes_witness :
  @createStringMap sampleAxisHelpers sampleDataHelpers [stringAxis; stringBar] X
  = Some [("b", 1); ("a", 2); ("c", 3); ("d", 4)] ∧
  values [("b", 1); ("a", 2); ("c", 3); ("d", 4)]
  ≡ₚ codes (size (list_to_set
       (@candidateStrings sampleAxisHelpers sampleDataHelpers
          [stringAxis; stringBar] X) : gset string)).
Proof.
  split; [vm_compute; reflexivity|].
  apply (@createStringMap_codes sampleAxisHelpers sampleDataHelpers
           [stringAxis; stringBar] X); [vm_compute; reflexivity|].
  vm_compute. intros Hin.
  repeat (apply elem_of_cons in Hin as [?|Hin]; [done|]).
  by apply elem_of_nil in Hin.
Defined.

(** ** Ticks and tick formats *)

Lemma array_at_Z l c :
  0 ≤ c → array_at l (Qc_of_Z c) = default VUndef (l !! Z.to_nat c).
Proof. intros Hc. unfold array_at. simpl. by rewrite decide_True. Qed.

Lemma codes_Sorted n : Sorted Z.le (codes n).
Proof.
  unfold codes. apply (Sorted_fmap _ (λ a b, a ≤ b)%nat); [intros; lia|].
  generalize 1%nat. induction n as [|n IH]; intros i; simpl; [constructor|].
  constructor; [apply IH|]. destruct n; simpl; constructor. lia.
Qed.

Lemma codes_NoDup n : NoDup (codes n).
Proof. unfold codes. apply NoDup_fmap_2; [apply _ | apply NoDup_seq]. Qed.

Lemma codes_lookup n i :
  (i < n)%nat → codes n !! i = Some (Z.of_nat i + 1).
Proof.
  intros Hi. unfold codes. rewrite list_lookup_fmap, lookup_seq_lt by done.
  simpl. f_equal. lia.
Qed.

Lemma sortBy_codes l n : l ≡ₚ codes n → sortBy l = codes n.
Proof.
  intros Hperm. unfold sortBy.
  apply (Sorted_unique Z.le); [apply Sorted_merge_sort, _ | apply codes_Sorted |].
  by rewrite merge_sort_Permutation.
Qed.

Lemma invert_snoc stringMap k v :
  invert (stringMap ++ [(k, v)]) = <[v := k]> (invert stringMap).
Proof. unfold invert. by rewrite foldl_snoc. Qed.

Lemma invert_lookup stringMap s c :
  NoDup (values stringMap) → (s, c) ∈ stringMap → invert stringMap !! c = Some s.
Proof.
  unfold values. induction stringMap as [|[k v] stringMap IH] using rev_ind.
  - by intros _ ?%elem_of_nil.
  - rewrite fmap_app, invert_snoc. simpl.
    intros (Hnd & Hv & _)%NoDup_app. rewrite elem_of_app, list_elem_of_singleton.
    intros [Hin|[= -> ->]]; [|by rewrite lookup_insert_eq].
    rewrite lookup_insert_ne; [by apply IH|].
    intros ->. apply (Hv c); [|by left].
    apply list_elem_of_fmap. by exists (s, c).
Qed.

(** The formatter of a dense string map: the padding positions [0] and
    [N + 1] give the empty string, and the code of a string gives the
    string. *)
Lemma stringMapFormat_dense stringMap N :
  NoDup stringMap.*1 → values stringMap ≡ₚ codes N →
  dataTicks stringMap
  = [VStr ""] ++ (inverted_at (invert stringMap) <$> codes N) ++ [VStr ""] ∧
  stringMapFormat stringMap (Qc_of_Z 0) = VStr "" ∧
  stringMapFormat stringMap (Qc_of_Z (Z.of_nat N + 1)) = VStr "" ∧
  ∀ s c, obj_get stringMap s = Some c →
         stringMapFormat stringMap (Qc_of_Z c) = VStr s.
Proof.
  intros Hkeys Hperm.
  assert (Hticks : dataTicks stringMap
    = [VStr ""] ++ (inverted_at (invert stringMap) <$> codes N) ++ [VStr ""]).
  { unfold dataTicks. by rewrite (sortBy_codes _ N). }
  split; [done|]. unfold stringMapFormat. rewrite Hticks.
  assert (Hlen : length (inverted_at (invert stringMap) <$> codes N) = N).
  { unfold codes. by rewrite !length_fmap, length_seq. }
  split; [|split].
  - by rewrite array_at_Z.
  - rewrite array_at_Z by lia. simpl.
    replace (Z.to_nat (Z.of_nat N + 1)) with (S N) by lia. simpl.
    rewrite lookup_app_r by lia. by rewrite Hlen, Nat.sub_diag.
  - intros s c Hget. apply obj_get_Some in Hget; [|done].
    assert (Hc : c ∈ codes N).
    { rewrite <- Hperm. apply list_elem_of_fmap. by exists (s, c). }
    apply codes_elem in Hc. rewrite array_at_Z by lia. simpl.
    replace (Z.to_nat c) with (S (Z.to_nat c - 1)) by lia. simpl.
    rewrite lookup_app_l by lia.
    rewrite list_lookup_fmap, codes_lookup by lia. simpl.
    unfold inverted_at. rewrite (invert_lookup _ s); [done| |].
    + rewrite Hperm. apply codes_NoDup.
    + by replace (Z.of_nat (Z.to_nat c - 1) + 1) with c by lia.
Qed.

(** C4. For the string map [{a: 1, b: 2, c: 3}], an axis without tick values
    and no category data, [getTicks] returns [[1, 2, 3]] and the format maps
    [0] to the empty string, [1] to [a], [2] to [b], [3] to [c] and [4] to the
    empty string. In general, for an axis without tick values, or with tick
    values that contain a string, and a string map, the format indexes the
    list made of an empty string, the strings of the codes in ascending
    order, and an empty string; for a map with codes [1, ..., N] it sends each
    code to its string and [0] and [N + 1] to the empty string. *)
Theorem getTickFormat_stringMap calculatedProps axis component stringMap' :
  stringMap calculatedProps axis = Some stringMap' →
  (tickValues (props component) = None ∨
   ∃ ticks, tickValues (props component) = Some ticks ∧
            containsStrings ticks = true) →
  let format := getTickFormat component axis calculatedProps in
  (format = λ x, array_at
       ([VStr ""]
          ++ (inverted_at (invert stringMap') <$> sortBy (values stringMap'))
          ++ [VStr ""]) x) ∧
  Sorted Z.le (sortBy (values stringMap')) ∧
  sortBy (values stringMap') ≡ₚ values stringMap' ∧
  (∀ N, NoDup stringMap'.*1 → values stringMap' ≡ₚ codes N →
        sortBy (values stringMap') = codes N ∧
        format (Qc_of_Z 0) = VStr "" ∧
        format (Qc_of_Z (Z.of_nat N + 1)) = VStr "" ∧
        ∀ s c, obj_get stringMap' s = Some c → format (Qc_of_Z c) = VStr s) ∧
  let abcProps := calculatedWith (Some abc) None in
  let abcFormat := getTickFormat (axisWithTicks None) axis abcProps in
  getTicks abcProps axis (axisWithTicks None)
  = Returns (Some [VNum (Qc_of_Z 1); VNum (Qc_of_Z 2); VNum (Qc_of_Z 3)]) ∧
  abcFormat (Qc_of_Z 0) = VStr "" ∧
  abcFormat (Qc_of_Z 1) = VStr "a" ∧
  abcFormat (Qc_of_Z 2) = VStr "b" ∧
  abcFormat (Qc_of_Z 3) = VStr "c" ∧
  abcFormat (Qc_of_Z 4) = VStr "".
Proof.
  intros Hsm Hticks format.
  assert (Hformat : format = stringMapFormat stringMap').
  { unfold format, getTickFormat. rewrite Hsm.
    destruct Hticks as [->|(ticks & -> & ->)]; done. }
  rewrite Hformat.
  split; [done|]. split; [apply Sorted_merge_sort, _|].
  split; [apply merge_sort_Permutation|]. split.
  - intros N Hkeys Hperm.
    destruct (stringMapFormat_dense stringMap' N Hkeys Hperm)
      as (_ & H0 & HN & Hcode).
    split; [by apply sortBy_codes|]. done.
  - repeat split; by vm_compute.
Qed.

Lemma getTickFormat_stringMap_witness :
  let calculatedProps := calculatedWith (Some abc) None in
  stringMap calculatedProps X = Some abc ∧
  NoDup abc.*1 ∧ values abc ≡ₚ codes 3 ∧
  sortBy (values abc) = codes 3.
Proof.
  assert (Hkeys : NoDup abc.*1) by compute_done.
  assert (Hperm : values abc ≡ₚ codes 3) by done.
  split; [reflexivity|]. split; [done|]. split; [done|].
  apply (getTickFormat_stringMap (calculatedWith (Some abc) None) X
           (axisWithTicks None) abc); [reflexivity | by left | done | done].
Defined.

(** C5. When the axis child declares tick values, [getTicks] returns ticks
    made from them: the declared values themselves, or, when all of them are
    strings and a string map exists, their codes, value by value. The result
    does not depend on the category data or on anything else in the calculated
    props than the string map of the axis, and it is never the list of the
    codes of the whole string map. Declared values that are not all strings
    are returned unchanged, with or without a string map. *)
Theorem getTicks_declared calculatedProps axis component ticks :
  tickValues (props component) = Some ticks →
  getTicks calculatedProps axis component
  = Returns (Some (match stringMap calculatedProps axis with
                   | Some stringMap' =>
                       if containsOnlyStrings ticks
                       then stringMap_at stringMap' <$> ticks else ticks
                   | None => ticks
                   end)) ∧
  (∀ calculatedProps',
     stringMap calculatedProps' axis = stringMap calculatedProps axis →
     getTicks calculatedProps' axis component
     = getTicks calculatedProps axis component) ∧
  (containsOnlyStrings ticks = false →
   getTicks calculatedProps axis component = Returns (Some ticks)).
Proof.
  intros Hticks.
  assert (Hgen : ∀ cp, getTicks cp axis component
    = Returns (Some (match stringMap cp axis with
                     | Some stringMap' =>
                         if containsOnlyStrings ticks
                         then stringMap_at stringMap' <$> ticks else ticks
                     | None => ticks
                     end))).
  { intros cp. unfold getTicks, getTicksFromAxis. rewrite Hticks.
    destruct (stringMap cp axis); [|done]. by destruct (containsOnlyStrings ticks). }
  split; [apply Hgen|]. split.
  - intros cp' Heq. by rewrite !Hgen, Heq.
  - intros Hmixed. rewrite Hgen, Hmixed. by destruct (stringMap _ _).
Qed.

Lemma getTicks_declared_witness :
  let ticks := [VNum (Qc_of_Z 5); VNum (Qc_of_Z 7)] in
  tickValues (props (axisWithTicks (Some ticks))) = Some ticks ∧
  containsOnlyStrings ticks = false ∧
  getTicks (calculatedWith (Some abc) (Some [VStr "a"])) X
    (axisWithTicks (Some ticks))
  = Returns (Some ticks).
Proof.
  split; [reflexivity|]. split; [reflexivity|].
  apply (getTicks_declared (calculatedWith (Some abc) (Some [VStr "a"])) X
           (axisWithTicks (Some [VNum (Qc_of_Z 5); VNum (Qc_of_Z 7)]))
           [VNum (Qc_of_Z 5); VNum (Qc_of_Z 7)]); reflexivity.
Defined.

(** C10. When the declared tick values mix strings with other values and a
    string map exists for the axis, [getTicks] returns the declared values as
    they are: the strings among them are not replaced by what the string map
    holds for them. [getTickFormat] nevertheless returns the format that
    indexes the padded list of labels of the string map: the empty string,
    the names of the codes in ascending order, the empty string. It is not the
    identity: the positions [0] and [length + 1] are labelled with the empty
    string, and for a map with the codes [1, ..., N] each code is labelled
    with its string. With the map [{a: 1, b: 2, c: 3}] and the tick values
    [["a", 2]] the ticks are [["a", 2]] and the labels of [0, ..., 4] are the
    empty string, [a], [b], [c] and the empty string. *)
Theorem mixed_ticks_format calculatedProps axis component ticks stringMap' :
  tickValues (props component) = Some ticks →
  containsStrings ticks = true → containsOnlyStrings ticks = false →
  stringMap calculatedProps axis = Some stringMap' →
  let format := getTickFormat component axis calculatedProps in
  let labels :=
    [VStr ""]
      ++ (inverted_at (invert stringMap') <$> sortBy (values stringMap'))
      ++ [VStr ""] in
  getTicks calculatedProps axis component = Returns (Some ticks) ∧
  getTicks calculatedProps axis component
  ≠ Returns (Some (stringMap_at stringMap' <$> ticks)) ∧
  (format = λ x, array_at labels x) ∧
  (∀ k, 0 ≤ k → format (Qc_of_Z k) = default VUndef (labels !! Z.to_nat k)) ∧
  length labels = (length stringMap' + 2)%nat ∧
  format (Qc_of_Z 0) = VStr "" ∧
  format (Qc_of_Z (Z.of_nat (length stringMap') + 1)) = VStr "" ∧
  format ≠ identity ∧
  (∀ N, NoDup stringMap'.*1 → values stringMap' ≡ₚ codes N →
        ∀ s c, obj_get stringMap' s = Some c → format (Qc_of_Z c) = VStr s) ∧
  let mixed := [VStr "a"; VNum (Qc_of_Z 2)] in
  let abcProps := calculatedWith (Some abc) None in
  let abcFormat := getTickFormat (axisWithTicks (Some mixed)) axis abcProps in
  getTicks abcProps axis (axisWithTicks (Some mixed))
  = Returns (Some [VStr "a"; VNum (Qc_of_Z 2)]) ∧
  abcFormat (Qc_of_Z 0) = VStr "" ∧
  abcFormat (Qc_of_Z 1) = VStr "a" ∧
  abcFormat (Qc_of_Z 2) = VStr "b" ∧
  abcFormat (Qc_of_Z 3) = VStr "c" ∧
  abcFormat (Qc_of_Z 4) = VStr "".
Proof.
  intros Hticks Hsome Hmixed Hsm format labels.
  assert (Hformat : format = λ x, array_at labels x).
  { unfold format, getTickFormat. by rewrite Hticks, Hsome, Hsm. }
  assert (Hget : getTicks calculatedProps axis component = Returns (Some ticks)).
  { unfold getTicks, getTicksFromAxis. by rewrite Hticks, Hsm, Hmixed. }
  assert (Hnames :
    length (inverted_at (invert stringMap') <$> sortBy (values stringMap'))
    = length stringMap').
  { rewrite length_fmap. unfold sortBy, values.
    rewrite (Permutation_length (merge_sort_Permutation _ _)).
    by rewrite length_fmap. }
  assert (Hzero : format (Qc_of_Z 0) = VStr "").
  { rewrite Hformat. by rewrite array_at_Z. }
  split; [done|]. split; [|split; [done|split; [|split; [|split; [done|split;
    [|split; [|split]]]]]]].
  - rewrite Hget. intros [= Heq].
    unfold containsStrings in Hsome. apply existsb_exists in Hsome as (v & Hv & Hstr).
    apply list_elem_of_In, list_elem_of_lookup_1 in Hv as [i Hi].
    assert (Hi' := Hi). rewrite Heq, list_lookup_fmap, Hi in Hi'.
    destruct v; try done. simpl in Hi'.
    destruct (obj_get stringMap' s); [done|]. by case_decide.
  - intros k Hk. rewrite Hformat. by apply array_at_Z.
  - unfold labels. rewrite !length_app, Hnames. simpl. lia.
  - rewrite Hformat, array_at_Z by lia. unfold labels.
    replace (Z.to_nat (Z.of_nat (length stringMap') + 1))
      with (S (length stringMap')) by lia.
    simpl. rewrite lookup_app_r by lia. by rewrite Hnames, Nat.sub_diag.
  - intros Heq.
    assert (Hid : format (Qc_of_Z 0) = identity (Qc_of_Z 0)) by (by rewrite Heq).
    by rewrite Hzero in Hid.
  - intros N Hkeys Hperm s c Hc.
    assert (Hdense : format = stringMapFormat stringMap') by (by rewrite Hformat).
    rewrite Hdense. by apply (stringMapFormat_dense stringMap' N Hkeys Hperm).
  - repeat split; by vm_compute.
Qed.

Lemma mixed_ticks_format_witness :
  let ticks := [VStr "a"; VNum (Qc_of_Z 2)] in
  let calculatedProps := calculatedWith (Some abc) None in
  containsStrings ticks = true ∧ containsOnlyStrings ticks = false ∧
  getTicks calculatedProps X (axisWithTicks (Some ticks)) = Returns (Some ticks) ∧
  getTicks calculatedProps X (axisWithTicks (Some ticks))
  ≠ Returns (Some (stringMap_at abc <$> ticks)).
Proof.
  split; [reflexivity|]. split; [reflexivity|].
  destruct (mixed_ticks_format (calculatedWith (Some abc) None) X
              (axisWithTicks (Some [VStr "a"; VNum (Qc_of_Z 2)]))
              [VStr "a"; VNum (Qc_of_Z 2)] abc) as (Hget & Hne & _);
    [reflexivity | reflexivity | reflexivity | reflexivity |].
  by split.
Defined.

(** ** getCategories *)

Lemma indexOf_unshared prev ref :
  ref ∉ arrayRefs prev → indexOf prev (Some ref) = -1.
Proof.
  intros Href. unfold indexOf.
  assert (list_find (λ x, identical_to_array x (Some ref) = true) prev = None)
    as ->; [|done].
  apply list_find_None, Forall_forall. intros x Hx.
  destruct x as [| | | |ref' a| |]; try done. simpl.
  rewrite bool_decide_eq_true. intros ->. apply Href.
  unfold arrayRefs. rewrite list_elem_of_omap. by exists (VArr ref a).
Qed.

(** The array that [map] has created is found nowhere. *)
Lemma indexOf_fresh prev : indexOf prev None = -1.
Proof.
  unfold indexOf.
  assert (list_find (λ x, identical_to_array x None = true) prev = None)
    as ->; [|done].
  apply list_find_None, Forall_forall. intros x _. by destruct x.
Qed.

(** A component adds its categories to the accumulated list, unless its
    [categories] array is an entry of that list. *)
Lemma addCategories_unshared prev component :
  categoriesRef (props component) ∉ arrayRefs prev →
  addCategories prev component = prev ++ categoriesOf component.
Proof.
  intros Href. unfold addCategories, categoriesOf.
  destruct (categories (props component)) as [cats|]; [|by rewrite app_nil_r].
  destruct (isArrayOfArrays cats); simpl.
  - by rewrite decide_True by apply indexOf_fresh.
  - by rewrite decide_True by (by apply indexOf_unshared).
Qed.

Lemma addCategories_nil component :
  addCategories [] component = categoriesOf component.
Proof. apply addCategories_unshared, not_elem_of_nil. Qed.






(** C6, the code at the input of the claim. The means of [[1, 3]] and
    [[5, 7]] are [2] and [6], and the second component adds [2] and [6] once
    more: the result is [[2, 6, 2, 6]], not [[2, 6]]. *)
Theorem getCategories_repeats :
  categoriesOf nestedBar = [VNum (Qc_of_Z 2); VNum (Qc_of_Z 6)] ∧
  getCategories [nestedBar; flatBar]
  = Some [VNum (Qc_of_Z 2); VNum (Qc_of_Z 6); VNum (Qc_of_Z 2); VNum (Qc_of_Z 6)] ∧
  getCategories [nestedBar; flatBar] ≠ Some [VNum (Qc_of_Z 2); VNum (Qc_of_Z 6)].
Proof.
  split; [by compute_done|].
  assert (Hcats : getCategories [nestedBar; flatBar]
    = Some [VNum (Qc_of_Z 2); VNum (Qc_of_Z 6); VNum (Qc_of_Z 2); VNum (Qc_of_Z 6)])
    by compute_done.
  split; [done|]. by rewrite Hcats.
Qed.

(** The one case in which the search succeeds: the [categories] of the second
    component is the array [[1, 2]] that the first has contributed as a
    value, and nothing of the second is added. *)
Example getCategories_shared_array :
  getCategories [mixedBar; sharingBar]
  = Some [VArr 6%nat [Qc_of_Z 1; Qc_of_Z 2]; VStr "x"] ∧
  getCategories [sharingBar; mixedBar]
  = Some [VNum (Qc_of_Z 1); VNum (Qc_of_Z 2);
          VArr 6%nat [Qc_of_Z 1; Qc_of_Z 2]; VStr "x"].
Proof. split; by compute_done. Qed.

(** The mean is rounded as the doubles are: three times [0.1] add up to
    [0.30000000000000004], and the third of it is [0.10000000000000002], the
    double above [0.1]. The mean of no entry is [NaN], and the mean of two
    times [1e308] is [Infinity]. *)
Example mean_rounds :
  to_double (Q2Qc (1 # 10)) = S754_finite false 7205759403792794 (-56) ∧
  mean (VArr 0%nat [Q2Qc (1 # 10); Q2Qc (1 # 10); Q2Qc (1 # 10)])
  = of_double (S754_finite false 7205759403792795 (-56)) ∧
  mean (VArr 0%nat [Qc_of_Z 1; Qc_of_Z 3]) = VNum (Qc_of_Z 2) ∧
  mean (VArr 0%nat []) = VNaN ∧
  mean (VArr 0%nat [Qc_of_Z (10 ^ 308); Qc_of_Z (10 ^ 308)]) = VInfinity false.
Proof. repeat split; by compute_done. Qed.

(** ** getAxisOffset *)

Lemma Math_abs_spec x :
  (0 ≤ Math_abs x)%Qc ∧ (Math_abs x = x ∨ Math_abs x = (- x)%Qc).
Proof.
  unfold Math_abs. case_decide as Hx; [by split; [|left]|].
  split; [|by right]. apply Qclt_nge, Qclt_le_weak in Hx.
  apply (Qcopp_le_compat x 0) in Hx. done.
Qed.

Lemma Math_min_pair a b : Math_min a [b] = num_min a b.
Proof. done. Qed.

(** The offsets of the chart of the specification: domain [[-2, 10]], the
    [y] axis on the left and the [x] axis at the bottom, 400 by 300 pixels.
    The origin is [0] and the scale sends it to [50]. *)
Example getAxisOffset_sample :
  @getAxisOffset sampleAxisHelpers (chartOf None) (calculatedWithOffsetX None)
  = {| offset_x := Qc_of_Z 50; offset_y := Qc_of_Z 250 |}.
Proof.
  unfold getAxisOffset. f_equal; by compute_done.
Qed.

(** C7, the code at an input where the claim fails. The [x] axis is the
    element [<VictoryAxis offsetX={30}/>]: the override [30] is in its props.
    [getAxisOffset] reads [offsetX] on the element itself, where React puts
    no such property, and returns the computed offset [50] for [x]. Whatever
    the props of the axis elements hold, the offsets of a chart whose axis
    components are elements are the computed ones: the absolute difference
    of the anchor and the scaled origin. *)
Theorem getAxisOffset_props_override :
  let override := Some (Qc_of_Z 30) in
  let calculatedProps := calculatedWithAxis (axisWithOffsetX override) in
  props_offsetX (props (axisComponents calculatedProps X)) = Some (Qc_of_Z 30) ∧
  @getAxisOffset sampleAxisHelpers (chartOf None) calculatedProps
  = {| offset_x := Qc_of_Z 50; offset_y := Qc_of_Z 250 |} ∧
  offset_x (@getAxisOffset sampleAxisHelpers (chartOf None) calculatedProps)
  ≠ Qc_of_Z 30 ∧
  ∀ (axisHelpers : AxisHelpers) chartProps calculatedProps typeX propsX typeY propsY,
    axisComponents calculatedProps X = element typeX propsX →
    axisComponents calculatedProps Y = element typeY propsY →
    let origin axis :=
      num_max (num_min (calc_domain calculatedProps axis).1
                       (calc_domain calculatedProps axis).2) 0%Qc in
    let anchor_x :=
      if decide (getOrientation (axisComponents calculatedProps Y) Y = "left")
      then 0%Qc else width chartProps in
    let anchor_y :=
      if decide (getOrientation (axisComponents calculatedProps X) X = "bottom")
      then height chartProps else 0%Qc in
    getAxisOffset chartProps calculatedProps
    = {| offset_x :=
           Math_abs (anchor_x - call (scale calculatedProps X) (origin X))%Qc;
         offset_y :=
           Math_abs (anchor_y - call (scale calculatedProps Y) (origin Y))%Qc |}.
Proof.
  intros override calculatedProps.
  assert (Hrun : @getAxisOffset sampleAxisHelpers (chartOf None) calculatedProps
                 = {| offset_x := Qc_of_Z 50; offset_y := Qc_of_Z 250 |}).
  { unfold getAxisOffset. f_equal; by compute_done. }
  split; [reflexivity|]. split; [done|]. split.
  - rewrite Hrun. by compute_done.
  - intros axisHelpers chartProps calculatedProps' typeX propsX typeY propsY HX HY.
    unfold getAxisOffset. cbv zeta. by rewrite HX, HY.
Qed.

(** ** No [TypeError] in [getChildComponents] *)

Lemma getChildComponents_total chartProps defaultAxes log :
  is_Some (getChildComponents chartProps defaultAxes log).
Proof.
  unfold getChildComponents. destruct (children chartProps) as [nodes|]; [|done].
  destruct (scan_total nodes log) as (st & -> & _). done.
Qed.

(** * Further properties *)

(** ** getChildComponents: order, warnings, fixed point *)

Lemma class_lengths (l : list Child) :
  length l
  = (length (filter (isAxis Independent) l)
     + length (filter (isAxis Dependent) l)
     + length (filter isBar l) + length (filter isOther l))%nat.
Proof.
  induction l as [|c l IH]; [done|]. rewrite !filter_cons. simpl. rewrite IH.
  destruct (child_cases c) as [[axis Ha]|[Hb|Ho]].
  - rewrite (decide_False (P := isBar c)) by (by eapply isAxis_not_bar).
    rewrite (decide_False (P := isOther c)) by (by eapply isAxis_not_other).
    destruct axis; do 2 axis_case; simpl; lia.
  - rewrite (decide_True (P := isBar c)) by done.
    rewrite (decide_False (P := isOther c)) by (by apply isBar_not_other).
    rewrite !(decide_False (P := isAxis _ c)) by (by apply isBar_not_axis).
    simpl; lia.
  - rewrite (decide_True (P := isOther c)) by done.
    rewrite (decide_False (P := isBar c)) by (by apply isOther_not_bar).
    rewrite !(decide_False (P := isAxis _ c)) by (by apply isOther_not_axis).
    simpl; lia.
Qed.

(** What the array and the log hold after the elements [declared] have been
    visited, from an empty log: the array is a subsequence of the declared
    elements, and every rejected element has left one warning of its kind. *)
Record log_inv (declared kept : list Child) (log : list Warning) : Prop := {
  log_sublist : kept `sublist_of` declared;
  log_axis :
    (length (filter (λ w, w = AxisLimitWarning) log)
     + length (filter (isAxis Independent) kept)
     + length (filter (isAxis Dependent) kept)
     = length (filter (isAxis Independent) declared)
       + length (filter (isAxis Dependent) declared))%nat;
  log_bar :
    (length (filter (λ w, w = ComponentLimitWarning "bar") log)
     + length (filter isBar kept)
     = length (filter isBar declared))%nat;
  log_kinds :
    Forall (λ w, w = AxisLimitWarning ∨ w = ComponentLimitWarning "bar") log
}.

Lemma log_inv_empty : log_inv [] [] [].
Proof. split; [done | done | done | constructor]. Qed.

Lemma visit_log declared st child :
  counts_inv declared (counts st) →
  log_inv declared (childComponents st) (warnings st) →
  ∀ st', visit st (NodeElement child) = Some st' →
         log_inv (declared ++ [child]) (childComponents st') (warnings st').
Proof.
  intros Hc [Hsub Hax Hbar Hkinds] st' Hvisit. simpl in Hvisit.
  destruct (addChild (counts st) child) as [counts'|]; [|done].
  simpl in Hvisit. injection Hvisit as <-.
  destruct (child_cases child) as [[axis Ha]|[Hb|Ho]].
  - assert (Hrole := getAxisType_Some _ _ Ha).
    assert (Hnb : ¬ isBar child) by (by eapply isAxis_not_bar).
    destruct (limitReached (counts st) child); simpl.
    + split.
      * by apply sublist_inserts_r.
      * rewrite Hrole, decide_True by done.
        rewrite !filter_snoc, !length_app, decide_True by done.
        destruct axis; do 2 axis_case; simpl; lia.
      * rewrite Hrole, decide_True by done.
        rewrite !filter_snoc, !length_app.
        rewrite (decide_False (P := AxisLimitWarning = _)) by done.
        rewrite (decide_False (P := isBar child)) by done. simpl. lia.
      * apply Forall_app. split; [done|]. apply Forall_singleton.
        rewrite Hrole, decide_True by done. by left.
    + split.
      * by apply sublist_app.
      * rewrite !filter_snoc, !length_app.
        destruct axis; repeat axis_case; simpl; lia.
      * rewrite !filter_snoc, !length_app.
        rewrite !(decide_False (P := isBar child)) by done. simpl. lia.
      * done.
  - assert (Hna : ∀ axis, ¬ isAxis axis child)
      by (intros axis; by apply isBar_not_axis).
    assert (Hrole : role (type child) ≠ Some "axis") by (rewrite Hb; done).
    destruct (limitReached (counts st) child); simpl.
    + split.
      * by apply sublist_inserts_r.
      * rewrite decide_False by done.
        rewrite !filter_snoc, !length_app.
        rewrite (decide_False (P := ComponentLimitWarning _ = _)) by done.
        rewrite !(decide_False (P := isAxis _ child)) by done. simpl. lia.
      * rewrite decide_False by done. rewrite Hb. simpl.
        rewrite !filter_snoc, !length_app, !decide_True by done. simpl. lia.
      * apply Forall_app. split; [done|]. apply Forall_singleton.
        rewrite decide_False by done. rewrite Hb. by right.
    + split.
      * by apply sublist_app.
      * rewrite !filter_snoc, !length_app.
        rewrite !(decide_False (P := isAxis _ child)) by done. simpl. lia.
      * rewrite !filter_snoc, !length_app, !decide_True by done. simpl. lia.
      * done.
  - rewrite limitReached_other by done. simpl.
    assert (Hna : ∀ axis, ¬ isAxis axis child)
      by (intros axis; by apply isOther_not_axis).
    assert (Hnb : ¬ isBar child) by (by apply isOther_not_bar).
    split.
    + by apply sublist_app.
    + rewrite !filter_snoc, !length_app.
      rewrite !(decide_False (P := isAxis _ child)) by done. simpl. lia.
    + rewrite !filter_snoc, !length_app.
      rewrite !(decide_False (P := isBar child)) by done. simpl. lia.
    + done.
Qed.

Lemma forEach_log nodes : ∀ declared st,
  counts_inv declared (counts st) → kept_inv declared (childComponents st) →
  log_inv declared (childComponents st) (warnings st) →
  ∀ st', forEach nodes st = Some st' →
         log_inv (declared ++ elements nodes) (childComponents st') (warnings st').
Proof.
  induction nodes as [|node nodes IH]; intros declared st Hc Hk Hl st' Hrun.
  - injection Hrun as <-. by rewrite app_nil_r.
  - destruct node as [|s|child]; [by apply (IH declared st) ..|].
    destruct (visit_inv declared st child Hc Hk) as (st1 & Hv & Hc1 & Hk1).
    cbn [forEach] in Hrun. rewrite Hv in Hrun. simpl in Hrun.
    change (elements (NodeElement child :: nodes)) with (child :: elements nodes).
    replace (declared ++ child :: elements nodes)
      with ((declared ++ [child]) ++ elements nodes)
      by (by rewrite <- (assoc_L (++))).
    apply (IH _ st1); [done | done | | done]. by apply (visit_log declared st).
Qed.

Lemma scan_log nodes :
  ∃ st, scan nodes [] = Some st ∧
        kept_inv (elements nodes) (childComponents st) ∧
        log_inv (elements nodes) (childComponents st) (warnings st).
Proof.
  destruct (scan_total nodes []) as (st & Hscan & Hc & Hk).
  exists st. split; [done|]. split; [done|].
  apply (forEach_log nodes [] {| counts := ∅; childComponents := [];
                                 warnings := [] |});
    [apply counts_inv_empty | apply kept_inv_empty | apply log_inv_empty | done].
Qed.

(** The result of [getChildComponents] for any log: the kept elements of the
    loop and what the loop has logged, or the defaults alone. *)
Lemma getChildComponents_run chartProps defaultAxes :
  let declared := elements (default [] (children chartProps)) in
  ∃ kept emitted,
    kept_inv declared kept ∧ log_inv declared kept emitted ∧
    ∀ log, getChildComponents chartProps defaultAxes log
           = Some (kept ++ missingAxes defaultAxes declared, log ++ emitted).
Proof.
  intros declared. unfold declared.
  destruct (children chartProps) as [nodes|] eqn:Hnodes; simpl.
  - destruct (scan_log nodes) as (st & Hscan & Hk & Hl).
    exists (childComponents st), (warnings st).
    split; [done|]. split; [done|]. intros log.
    destruct (getChildComponents_children nodes chartProps defaultAxes []
                Hnodes) as (st0 & Hscan0 & _ & Hget).
    rewrite Hscan in Hscan0. injection Hscan0 as <-.
    rewrite getChildComponents_relog, Hget. simpl.
    unfold missingAxes. by rewrite (assoc_L (++)).
  - exists [], []. split; [apply kept_inv_empty|]. split; [apply log_inv_empty|].
    intros log. unfold getChildComponents. rewrite Hnodes.
    by rewrite app_nil_r.
Qed.

Lemma length_two_kinds (log : list Warning) :
  Forall (λ w, w = AxisLimitWarning ∨ w = ComponentLimitWarning "bar") log →
  length log
  = (length (filter (λ w, w = AxisLimitWarning) log)
     + length (filter (λ w, w = ComponentLimitWarning "bar") log))%nat.
Proof.
  induction 1 as [|w log [-> | ->] _ IH]; [done|..];
    rewrite !filter_cons; simpl; rewrite IH; lia.
Qed.

(** X1. The children that [getChildComponents] keeps are a subsequence of the
    declared elements, in the declared order: nothing is reordered or
    duplicated. The default axes follow them, the independent one before the
    dependent one, each only when no declared element is an axis of its
    kind. The returned array never has more entries than there are declared
    elements and default axes. *)
Theorem getChildComponents_order chartProps defaultAxes log :
  let declared := elements (default [] (children chartProps)) in
  ∃ kept log',
    getChildComponents chartProps defaultAxes log
    = Some (kept ++ missingAxes defaultAxes declared, log') ∧
    kept `sublist_of` declared ∧
    (∀ i j a b, (i < j)%nat → kept !! i = Some a → kept !! j = Some b →
       ∃ i' j', (i' < j')%nat ∧ declared !! i' = Some a ∧ declared !! j' = Some b) ∧
    (length (kept ++ missingAxes defaultAxes declared) ≤ length declared + 2)%nat.
Proof.
  intros declared.
  destruct (getChildComponents_run chartProps defaultAxes)
    as (kept & emitted & _ & [Hsub _ _ _] & Hget).
  fold declared in Hsub. exists kept, (log ++ emitted).
  split; [apply Hget|]. split; [done|]. split.
  - intros i j a b Hij Hi Hj.
    assert (Hsplit : kept = take j kept ++ b :: drop (S j) kept).
    { by rewrite <- (take_drop_middle kept j b) at 1. }
    rewrite Hsplit in Hsub.
    apply sublist_app_cons_l in Hsub as (d1 & d2 & Hd & Hs1 & _).
    assert (Ha : a ∈ take j kept).
    { apply list_elem_of_lookup_2 with i. by rewrite lookup_take_lt. }
    apply (λ H, elem_of_sublist _ _ _ H Hs1), list_elem_of_lookup_1 in Ha as [i' Hi'].
    exists i', (length d1). rewrite Hd. split; [by eapply lookup_lt_Some|].
    split; [by rewrite lookup_app_l by (by eapply lookup_lt_Some)|].
    by rewrite list_lookup_middle.
  - rewrite length_app. apply sublist_length in Hsub.
    assert (length (missingAxes defaultAxes declared) ≤ 2)%nat; [|lia].
    unfold missingAxes. rewrite length_app. do 2 case_decide; simpl; lia.
Qed.

Lemma kept_lengths declared kept emitted :
  kept_inv declared kept → log_inv declared kept emitted →
  length (filter (λ w, w = AxisLimitWarning) emitted)
  = (surplus (filter (isAxis Independent) declared)
     + surplus (filter (isAxis Dependent) declared))%nat ∧
  length (filter (λ w, w = ComponentLimitWarning "bar") emitted)
  = surplus (filter isBar declared) ∧
  (length kept + length emitted = length declared)%nat.
Proof.
  intros [Hax Hbar Hother] [_ Hlax Hlbar Hkinds].
  pose proof (class_lengths kept) as Hk.
  pose proof (class_lengths declared) as Hd.
  rewrite (length_two_kinds emitted Hkinds).
  rewrite !Hax, Hbar, Hother in Hk. rewrite !Hax in Hlax. rewrite Hbar in Hlbar.
  repeat rewrite length_take in Hk. repeat rewrite length_take in Hlax.
  repeat rewrite length_take in Hlbar.
  unfold surplus in *. lia.
Qed.

(** X2. [getChildComponents] warns once for every declared element that it
    rejects and never otherwise: the axis warning is logged once for every
    axis beyond the first of its kind, the component warning, always for the
    role [bar], once for every bar beyond the first, and no other warning is
    logged. Kept and rejected elements add up to the declared ones, and no
    warning at all is logged exactly when at most one axis of each kind and at
    most one bar are declared. Earlier content of the log is left in place. *)
Theorem getChildComponents_warnings chartProps defaultAxes :
  let declared := elements (default [] (children chartProps)) in
  ∃ selected emitted,
    (∀ log, getChildComponents chartProps defaultAxes log
            = Some (selected, log ++ emitted)) ∧
    length (filter (λ w, w = AxisLimitWarning) emitted)
    = (surplus (filter (isAxis Independent) declared)
       + surplus (filter (isAxis Dependent) declared))%nat ∧
    length (filter (λ w, w = ComponentLimitWarning "bar") emitted)
    = surplus (filter isBar declared) ∧
    Forall (λ w, w = AxisLimitWarning ∨ w = ComponentLimitWarning "bar") emitted ∧
    (length selected + length emitted
     = length declared + length (missingAxes defaultAxes declared))%nat ∧
    (emitted = [] ↔
       (length (filter (isAxis Independent) declared) ≤ 1 ∧
        length (filter (isAxis Dependent) declared) ≤ 1 ∧
        length (filter isBar declared) ≤ 1)%nat).
Proof.
  intros declared.
  destruct (getChildComponents_run chartProps defaultAxes)
    as (kept & emitted & Hk & Hl & Hget).
  fold declared in Hk, Hl.
  destruct (kept_lengths declared kept emitted Hk Hl) as (Hax & Hbar & Hsum).
  exists (kept ++ missingAxes defaultAxes declared), emitted.
  split; [apply Hget|]. split; [done|]. split; [done|].
  split; [apply Hl|]. split; [rewrite length_app; lia|].
  rewrite <- length_zero_iff_nil, (length_two_kinds emitted) by apply Hl.
  rewrite Hax, Hbar. unfold surplus. lia.
Qed.

Lemma missingAxes_filter defaultAxes declared :
  isAxis Independent (independent defaultAxes) →
  isAxis Dependent (dependent defaultAxes) →
  (∀ axis, filter (isAxis axis) (missingAxes defaultAxes declared)
           = if decide (filter (isAxis axis) declared = [])
             then [defaultAxis defaultAxes axis] else []) ∧
  filter isBar (missingAxes defaultAxes declared) = [] ∧
  filter isOther (missingAxes defaultAxes declared) = [].
Proof.
  intros Hi Hd.
  assert (Hid : ¬ isAxis Dependent (independent defaultAxes))
    by (by eapply isAxis_other_axis).
  assert (Hdi : ¬ isAxis Independent (dependent defaultAxes))
    by (by eapply isAxis_other_axis).
  assert (Hib := isAxis_not_bar _ _ Hi). assert (Hdb := isAxis_not_bar _ _ Hd).
  assert (Hio := isAxis_not_other _ _ Hi).
  assert (Hdo := isAxis_not_other _ _ Hd).
  unfold missingAxes. split; [|split].
  - intros axis. rewrite filter_app.
    destruct axis; simpl; repeat case_decide;
      rewrite ?filter_nil, ?filter_singleton; repeat axis_case; done.
  - rewrite filter_app. repeat case_decide;
      rewrite ?filter_nil, ?filter_singleton;
      by rewrite ?decide_False by done.
  - rewrite filter_app. repeat case_decide;
      rewrite ?filter_nil, ?filter_singleton;
      by rewrite ?decide_False by done.
Qed.

Lemma sublist_full {A} (l1 l2 : list A) :
  l1 `sublist_of` l2 → (length l2 ≤ length l1)%nat → l1 = l2.
Proof.
  induction 1 as [|x l1 l2 _ IH|x l1 l2 Hsub _]; simpl; intros Hlen; [done| |].
  - f_equal. apply IH. lia.
  - apply sublist_length in Hsub. lia.
Qed.

Lemma elements_of_elements (l : list Child) : elements (NodeElement <$> l) = l.
Proof.
  induction l as [|c l IH]; [done|].
  change (c :: elements (NodeElement <$> l) = c :: l). by f_equal.
Qed.

(** X3. The result of [getChildComponents] is a fixed point: given back as
    the child list, with the same default axes (an independent and a
    dependent one), it is returned as it is, no default axis is added and
    nothing is logged. *)
Theorem getChildComponents_fixed_point chartProps defaultAxes log log' selected :
  isAxis Independent (independent defaultAxes) →
  isAxis Dependent (dependent defaultAxes) →
  getChildComponents chartProps defaultAxes log = Some (selected, log') →
  ∀ log'',
    getChildComponents (withChildren chartProps (Some (NodeElement <$> selected)))
      defaultAxes log''
    = Some (selected, log'').
Proof.
  intros Hi Hd Hget log''.
  destruct (getChildComponents_run chartProps defaultAxes)
    as (kept & emitted & [Hax Hbar _] & _ & Hrun).
  rewrite Hrun in Hget. injection Hget as <- _.
  set (declared := elements (default [] (children chartProps))) in *.
  destruct (missingAxes_filter defaultAxes declared Hi Hd) as (Hmax & Hmbar & _).
  set (selected := kept ++ missingAxes defaultAxes declared).
  assert (Hone : ∀ axis, length (filter (isAxis axis) selected) = 1%nat).
  { intros axis. unfold selected. rewrite filter_app, Hax, Hmax, length_app.
    case_decide as Hnil; [by rewrite Hnil|].
    destruct (filter (isAxis axis) declared); [done|]. simpl. lia. }
  assert (Hbars : (length (filter isBar selected) ≤ 1)%nat).
  { unfold selected. rewrite filter_app, Hbar, Hmbar, app_nil_r, length_take. lia. }
  destruct (getChildComponents_run
              (withChildren chartProps (Some (NodeElement <$> selected)))
              defaultAxes) as (kept' & emitted' & Hk' & Hl' & Hrun').
  simpl in Hk', Hl', Hrun'. rewrite elements_of_elements in Hk', Hl', Hrun'.
  destruct (kept_lengths selected kept' emitted' Hk' Hl') as (Hwa & Hwb & Hsum).
  assert (Hnone : emitted' = []).
  { apply length_zero_iff_nil.
    rewrite (length_two_kinds emitted') by apply Hl'.
    rewrite Hwa, Hwb. unfold surplus. rewrite !Hone. lia. }
  rewrite Hnone in Hsum. simpl in Hsum.
  assert (Hsame : kept' = selected).
  { apply sublist_full; [apply Hl' | lia]. }
  rewrite Hrun', Hnone, Hsame, app_nil_r. f_equal. f_equal.
  unfold missingAxes. pose proof (Hone Independent). pose proof (Hone Dependent).
  rewrite !decide_False; [by rewrite app_nil_r|..];
    by intros Hnil; rewrite Hnil in *.
Qed.

Lemma getChildComponents_fixed_point_witness :
  isAxis Independent (independent sampleAxes) ∧
  isAxis Dependent (dependent sampleAxes) ∧
  ∃ selected log',
    getChildComponents (chartOf (Some sampleNodes)) sampleAxes [] = Some (selected, log') ∧
    getChildComponents
      (withChildren (chartOf (Some sampleNodes)) (Some (NodeElement <$> selected)))
      sampleAxes []
    = Some (selected, []).
Proof.
  split; [reflexivity|]. split; [reflexivity|].
  eexists _, _. split; [vm_compute; reflexivity|].
  apply (getChildComponents_fixed_point (chartOf (Some sampleNodes)) sampleAxes
           [] [ComponentLimitWarning "bar"; AxisLimitWarning]);
    [reflexivity | reflexivity | vm_compute; reflexivity].
Defined.

(** X4. A child list without elements (absent, empty, or made of [null] and
    text children only) gives exactly the two default axes, the independent
    one first, and logs nothing. *)
Theorem getChildComponents_only_defaults chartProps defaultAxes log :
  elements (default [] (children chartProps)) = [] →
  getChildComponents chartProps defaultAxes log
  = Some ([independent defaultAxes; dependent defaultAxes], log).
Proof.
  intros Hnone.
  destruct (getChildComponents_run chartProps defaultAxes)
    as (kept & emitted & Hk & Hl & Hrun).
  rewrite Hnone in Hk, Hl, Hrun.
  destruct (kept_lengths [] kept emitted Hk Hl) as (_ & _ & Hsum).
  simpl in Hsum.
  assert (kept = []) as -> by (apply length_zero_iff_nil; lia).
  assert (emitted = []) as -> by (apply length_zero_iff_nil; lia).
  rewrite Hrun. by rewrite app_nil_r.
Qed.

Lemma getChildComponents_only_defaults_witness :
  elements [NodeNull; NodeText "caption"; NodeNull] = [] ∧
  getChildComponents (chartOf (Some [NodeNull; NodeText "caption"; NodeNull]))
    sampleAxes [AxisLimitWarning]
  = Some ([independent sampleAxes; dependent sampleAxes], [AxisLimitWarning]).
Proof.
  split; [reflexivity|].
  apply (getChildComponents_only_defaults
           (chartOf (Some [NodeNull; NodeText "caption"; NodeNull]))).
  reflexivity.
Defined.

(** ** getDataComponents and getCategories *)

Lemma getDataComponents_grouped childComponents :
  getDataComponents childComponents grouped = filter isBar childComponents.
Proof.
  unfold getDataComponents. apply list_filter_iff. intros c. unfold isBar.
  by rewrite bool_decide_eq_true.
Qed.

Lemma getDataComponents_data childComponents :
  getDataComponents childComponents data_only = filter isOther childComponents.
Proof.
  unfold getDataComponents. apply list_filter_iff. intros c. unfold isOther.
  by rewrite andb_true_iff, !bool_decide_eq_true.
Qed.

Lemma getDataComponents_all childComponents :
  getDataComponents childComponents all
  = filter (λ c, role (type c) ≠ Some "axis") childComponents.
Proof.
  unfold getDataComponents. apply list_filter_iff. intros c.
  by rewrite bool_decide_eq_true.
Qed.

(** X5. [getDataComponents] never returns an axis; the kinds [data] and
    [grouped] split the kind [all], whose members are the children with
    another role than [axis] (a child without a role among them): every
    member of [all] is in exactly one of the two; filtering twice by a kind
    is filtering once; and a grouped component is no data component. *)
Theorem getDataComponents_partition childComponents :
  (∀ c, c ∈ getDataComponents childComponents all ↔
        c ∈ childComponents ∧ role (type c) ≠ Some "axis") ∧
  (∀ c, c ∈ getDataComponents childComponents all ↔
        c ∈ getDataComponents childComponents data_only ∨
        c ∈ getDataComponents childComponents grouped) ∧
  (∀ c, c ∈ getDataComponents childComponents data_only →
        c ∉ getDataComponents childComponents grouped) ∧
  (length (getDataComponents childComponents all)
   = length (getDataComponents childComponents data_only)
     + length (getDataComponents childComponents grouped))%nat ∧
  (∀ kind, getDataComponents (getDataComponents childComponents kind) kind
           = getDataComponents childComponents kind) ∧
  getDataComponents (getDataComponents childComponents all) data_only
  = getDataComponents childComponents data_only ∧
  getDataComponents (getDataComponents childComponents all) grouped
  = getDataComponents childComponents grouped ∧
  getDataComponents (getDataComponents childComponents grouped) data_only = [].
Proof.
  rewrite !getDataComponents_all, !getDataComponents_data,
    !getDataComponents_grouped.
  split; [intros c; by rewrite list_elem_of_filter; naive_solver|].
  split.
  { intros c. rewrite !list_elem_of_filter. unfold isOther, isBar.
    destruct (decide (role (type c) = Some "bar")) as [Hb|Hb];
      [rewrite Hb|]; naive_solver. }
  split.
  { intros c. rewrite !list_elem_of_filter. unfold isOther, isBar. naive_solver. }
  split.
  { induction childComponents as [|c cs IH]; [done|]. rewrite !filter_cons.
    unfold isOther, isBar in *.
    destruct (decide (role (type c) = Some "axis")) as [Ha|Ha];
      destruct (decide (role (type c) = Some "bar")) as [Hb|Hb];
      repeat case_decide; simpl; try lia; try naive_solver congruence. }
  split.
  { intros kind. destruct kind;
      rewrite ?getDataComponents_all, ?getDataComponents_data,
        ?getDataComponents_grouped;
      induction childComponents as [|c cs IH]; try done;
      rewrite filter_cons; case_decide; rewrite ?filter_cons_True by done;
      by rewrite IH. }
  split; [|split].
  - induction childComponents as [|c cs IH]; [done|]. rewrite !filter_cons.
    unfold isOther in *. repeat case_decide; rewrite ?filter_cons;
      repeat case_decide; try naive_solver; by rewrite IH.
  - induction childComponents as [|c cs IH]; [done|]. rewrite !filter_cons.
    unfold isBar in *. repeat case_decide; rewrite ?filter_cons;
      repeat case_decide; try congruence; by rewrite IH.
  - induction childComponents as [|c cs IH]; [done|]. rewrite !filter_cons.
    unfold isBar, isOther in *. repeat case_decide; rewrite ?filter_cons;
      repeat case_decide; try naive_solver; by rewrite IH.
Qed.

(** X6. After the selection at most one grouped component is left, the first
    declared bar, and every declared component with a role other than [axis]
    and [bar] is still there, in order; no default axis is a data component.
    So [getCategories] of the selected children is read from the first
    declared bar alone: its categories, the means for an array of arrays, or
    [undefined] when there is no bar or the bar contributes no category. *)
Theorem selected_data_components chartProps defaultAxes log log' selected :
  isAxis Independent (independent defaultAxes) →
  isAxis Dependent (dependent defaultAxes) →
  getChildComponents chartProps defaultAxes log = Some (selected, log') →
  let declared := elements (default [] (children chartProps)) in
  getDataComponents selected grouped = take 1 (filter isBar declared) ∧
  getDataComponents selected data_only = filter isOther declared ∧
  (∀ c, c ∈ getDataComponents selected all → c ∈ declared) ∧
  getCategories selected
  = match filter isBar declared with
    | [] => None
    | bar :: _ =>
        if decide (categoriesOf bar = []) then None else Some (categoriesOf bar)
    end.
Proof.
  intros Hi Hd Hget declared.
  destruct (getChildComponents_run chartProps defaultAxes)
    as (kept & emitted & [Hax Hbar Hother] & [Hsub _ _ _] & Hrun).
  rewrite Hrun in Hget. injection Hget as <- _. fold declared in Hax, Hbar, Hother, Hsub |- *.
  destruct (missingAxes_filter defaultAxes declared Hi Hd) as (Hmax & Hmbar & Hmother).
  assert (Hgrouped : getDataComponents (kept ++ missingAxes defaultAxes declared) grouped
                     = take 1 (filter isBar declared)).
  { by rewrite getDataComponents_grouped, filter_app, Hbar, Hmbar, app_nil_r. }
  split; [done|]. split; [|split].
  - by rewrite getDataComponents_data, filter_app, Hother, Hmother, app_nil_r.
  - intros c. rewrite getDataComponents_all, list_elem_of_filter, elem_of_app.
    intros [Hrole [Hin|Hin]]; [by eapply elem_of_sublist|].
    exfalso. unfold missingAxes in Hin. rewrite elem_of_app in Hin.
    apply getAxisType_Some in Hi, Hd.
    destruct Hin as [Hin|Hin]; case_decide;
      try (by apply elem_of_nil in Hin);
      apply list_elem_of_singleton in Hin; congruence.
  - unfold getCategories. cbv zeta. rewrite Hgrouped.
    destruct (filter isBar declared) as [|bar bars]; [done|]. simpl.
    rewrite addCategories_nil.
    destruct (categoriesOf bar) eqn:Hcats; by repeat case_decide.
Qed.

Lemma selected_data_components_witness :
  isAxis Independent (independent sampleAxes) ∧
  isAxis Dependent (dependent sampleAxes) ∧
  ∃ selected,
    getChildComponents
      (chartOf (Some [NodeElement nestedBar; NodeElement flatBar])) sampleAxes []
    = Some (selected, [ComponentLimitWarning "bar"]) ∧
    getCategories selected = Some (categoriesOf nestedBar).
Proof.
  split; [reflexivity|]. split; [reflexivity|].
  eexists. split; [vm_compute; reflexivity|].
  apply (selected_data_components
           (chartOf (Some [NodeElement nestedBar; NodeElement flatBar]))
           sampleAxes [] [ComponentLimitWarning "bar"]);
    [reflexivity | reflexivity | vm_compute; reflexivity].
Defined.



(** ** getDomain: order of the children, more children *)

Lemma Math_min_perm x xs y ys :
  x :: xs ≡ₚ y :: ys → Math_min x xs = Math_min y ys.
Proof.
  intros Hperm.
  destruct (Math_min_spec xs x) as [Hin Hle].
  destruct (Math_min_spec ys y) as [Hin' Hle'].
  apply Qcle_antisym.
  - apply Hle. by rewrite Hperm.
  - apply Hle'. by rewrite <- Hperm.
Qed.

Lemma Math_max_perm x xs y ys :
  x :: xs ≡ₚ y :: ys → Math_max x xs = Math_max y ys.
Proof.
  intros Hperm.
  destruct (Math_max_spec xs x) as [Hin Hle].
  destruct (Math_max_spec ys y) as [Hin' Hle'].
  apply Qcle_antisym.
  - apply Hle'. by rewrite <- Hperm.
  - apply Hle. by rewrite Hperm.
Qed.

Lemma reportedEndpoints_perm cs cs' axis :
  cs ≡ₚ cs' → reportedEndpoints cs axis ≡ₚ reportedEndpoints cs' axis.
Proof. intros Hperm. unfold reportedEndpoints. by rewrite Hperm. Qed.

(** X9. Without a domain override the base domain of [getDomain] is ordered,
    its first entry is at most its second, whatever order the endpoints of
    the children have; and with or without an override it does not depend on
    the order of the children. *)
Theorem baseDomain_order_independent chartProps childComponents childComponents' axis :
  (domainOverride chartProps axis = None →
   ((baseDomain chartProps childComponents axis).1
    ≤ (baseDomain chartProps childComponents axis).2)%Qc) ∧
  (childComponents ≡ₚ childComponents' →
   baseDomain chartProps childComponents axis
   = baseDomain chartProps childComponents' axis).
Proof.
  split.
  - intros Hnone. unfold baseDomain. rewrite Hnone.
    destruct (childDomains childComponents axis) as [|x xs]; simpl.
    + by apply (proj1 (Z2Qc_inj_le 0 1)).
    + destruct (Math_min_spec xs x) as [_ Hle].
      destruct (Math_max_spec xs x) as [Hin _]. by apply Hle.
  - intros Hperm. unfold baseDomain.
    destruct (domainOverride chartProps axis); [done|].
    rewrite !childDomains_reported.
    pose proof (reportedEndpoints_perm _ _ axis Hperm) as Hends.
    destruct (reportedEndpoints childComponents axis) as [|x xs],
      (reportedEndpoints childComponents' axis) as [|y ys]; [done|..].
    + by apply Permutation_nil_cons in Hends.
    + symmetry in Hends. by apply Permutation_nil_cons in Hends.
    + by rewrite (Math_min_perm x xs y ys), (Math_max_perm x xs y ys).
Qed.

Lemma baseDomain_order_independent_witness :
  baseDomain (chartOf None)
    [reporting (Qc_of_Z 2, Qc_of_Z 8); reporting (Qc_of_Z 5, Qc_of_Z (-1))] X
  = baseDomain (chartOf None)
      [reporting (Qc_of_Z 5, Qc_of_Z (-1)); reporting (Qc_of_Z 2, Qc_of_Z 8)] X.
Proof.
  apply (baseDomain_order_independent (chartOf None)
    [reporting (Qc_of_Z 2, Qc_of_Z 8); reporting (Qc_of_Z 5, Qc_of_Z (-1))]
    [reporting (Qc_of_Z 5, Qc_of_Z (-1)); reporting (Qc_of_Z 2, Qc_of_Z 8)] X).
  apply Permutation_swap.
Defined.

(** X10. Without a domain override, once some child reports a domain, more
    children can only widen the base domain: its lower end does not rise and
    its upper end does not fall. *)
Theorem baseDomain_widens chartProps childComponents childComponents' axis :
  domainOverride chartProps axis = None →
  reportedEndpoints childComponents axis ≠ [] →
  ((baseDomain chartProps (childComponents ++ childComponents') axis).1
   ≤ (baseDomain chartProps childComponents axis).1)%Qc ∧
  ((baseDomain chartProps childComponents axis).2
   ≤ (baseDomain chartProps (childComponents ++ childComponents') axis).2)%Qc.
Proof.
  intros Hnone Hne. unfold baseDomain. rewrite Hnone, !childDomains_reported.
  assert (Happ : reportedEndpoints (childComponents ++ childComponents') axis
                 = reportedEndpoints childComponents axis
                   ++ reportedEndpoints childComponents' axis)
    by apply bind_app.
  rewrite Happ.
  destruct (reportedEndpoints childComponents axis) as [|x xs]; [done|]. simpl.
  destruct (Math_min_spec xs x) as [Hmin _].
  destruct (Math_max_spec xs x) as [Hmax _].
  destruct (Math_min_spec (xs ++ reportedEndpoints childComponents' axis) x)
    as [_ Hle].
  destruct (Math_max_spec (xs ++ reportedEndpoints childComponents' axis) x)
    as [_ Hge].
  split; [apply Hle | apply Hge];
    rewrite app_comm_cons, elem_of_app; by left.
Qed.

Lemma baseDomain_widens_witness :
  domainOverride (chartOf None) X = None ∧
  reportedEndpoints [reporting (Qc_of_Z 2, Qc_of_Z 8)] X ≠ [] ∧
  ((baseDomain (chartOf None)
      ([reporting (Qc_of_Z 2, Qc_of_Z 8)] ++ [reporting (Qc_of_Z (-1), Qc_of_Z 5)]) X).1
   ≤ (baseDomain (chartOf None) [reporting (Qc_of_Z 2, Qc_of_Z 8)] X).1)%Qc.
Proof.
  split; [reflexivity|]. split; [done|].
  apply (baseDomain_widens (chartOf None) [reporting (Qc_of_Z 2, Qc_of_Z 8)]
           [reporting (Qc_of_Z (-1), Qc_of_Z 5)] X); [reflexivity | done].
Defined.

(** ** Ticks: failure, lengths, labels *)

(** X11. [getTicksFromData] raises exactly when the category array is a
    non-empty array of strings and there is no string map, and [getTicks]
    exactly when, on top of that, the axis declares no tick values. With a
    string map neither raises. The result is [undefined] exactly when there
    is neither a category array nor a string map, and ticks made from a
    category array are as many as its entries. *)
Theorem getTicksFromData_failure calculatedProps axis component :
  (getTicksFromData calculatedProps axis = Throws ↔
   stringMap calculatedProps axis = None ∧
   ∃ c cs, calc_categories calculatedProps axis = Some (c :: cs) ∧
           containsOnlyStrings (c :: cs) = true) ∧
  (getTicks calculatedProps axis component = Throws ↔
   tickValues (props component) = None ∧
   getTicksFromData calculatedProps axis = Throws) ∧
  (is_Some (stringMap calculatedProps axis) →
   getTicks calculatedProps axis component ≠ Throws) ∧
  (getTicksFromData calculatedProps axis = Returns None ↔
   calc_categories calculatedProps axis = None ∧
   stringMap calculatedProps axis = None) ∧
  (∀ cats ticks,
     calc_categories calculatedProps axis = Some cats →
     getTicksFromData calculatedProps axis = Returns (Some ticks) →
     length ticks = length cats).
Proof.
  assert (Hfail : getTicksFromData calculatedProps axis = Throws ↔
    stringMap calculatedProps axis = None ∧
    ∃ c cs, calc_categories calculatedProps axis = Some (c :: cs) ∧
            containsOnlyStrings (c :: cs) = true).
  { unfold getTicksFromData. cbv zeta.
    destruct (calc_categories calculatedProps axis) as [[|c cs]|];
      destruct (stringMap calculatedProps axis) as [sm|]; simpl;
      try (split; [done | by intros [? (? & ? & ? & ?)]]).
    - destruct (isString c && containsOnlyStrings cs);
        (split; [done | by intros [? ?]]).
    - destruct (isString c && containsOnlyStrings cs) eqn:Hall.
      + split; [|done]. intros _. split; [done|]. by exists c, cs.
      + split; [done|]. intros [_ (c' & cs' & [= <- <-] & Hstr)]. congruence. }
  split; [done|]. split; [|split; [|split]].
  - unfold getTicks. destruct (getTicksFromAxis calculatedProps axis component)
      as [ticks|] eqn:Haxis.
    + split; [done|]. intros [Hnone _]. unfold getTicksFromAxis in Haxis.
      by rewrite Hnone in Haxis.
    + split; [|by intros [_ ?]]. intros Hthrows. split; [|done].
      unfold getTicksFromAxis in Haxis.
      destruct (tickValues (props component)); [|done].
      destruct (stringMap calculatedProps axis); [|done].
      by destruct (containsOnlyStrings l).
  - intros [sm Hsm] Hthrows. unfold getTicks in Hthrows.
    destruct (getTicksFromAxis calculatedProps axis component); [done|].
    apply Hfail in Hthrows as [Hnone _]. congruence.
  - unfold getTicksFromData. cbv zeta.
    destruct (calc_categories calculatedProps axis) as [cats|];
      destruct (stringMap calculatedProps axis) as [sm|]; simpl;
      try destruct (containsOnlyStrings cats); try destruct cats;
      split; try done; by intros [? ?].
  - intros cats ticks Hcats. unfold getTicksFromData. cbv zeta. rewrite Hcats.
    destruct (containsOnlyStrings cats).
    + destruct (stringMap calculatedProps axis) as [sm|].
      * intros [= <-]. by rewrite length_fmap.
      * destruct cats; [by intros [= <-] | done].
    + by intros [= <-].
Qed.

Lemma getTicksFromData_failure_witness :
  getTicks (calculatedWith (Some abc) (Some [VStr "a"; VStr "z"])) X
    (axisWithTicks None) ≠ Throws ∧
  ∀ ticks,
    getTicksFromData (calculatedWith (Some abc) (Some [VStr "a"; VStr "z"])) X
    = Returns (Some ticks) → length ticks = 2%nat.
Proof.
  pose proof (getTicksFromData_failure
                (calculatedWith (Some abc) (Some [VStr "a"; VStr "z"])) X
                (axisWithTicks None)) as (_ & _ & Hmap & _ & Hlen).
  split; [by apply Hmap|]. intros ticks Hticks.
  by apply (Hlen [VStr "a"; VStr "z"] ticks).
Defined.

(** X12. Declared string ticks and their labels agree. When the declared
    tick values are all strings and the axis has a string map with the codes
    [1, ..., N], [getTicks] returns one position per declared string: the
    code of the string, which [getTickFormat] sends back to that string. For
    a string that is no key of the map the position is no number: it is the
    member of that name that the map inherits from [Object.prototype], as for
    [constructor] or [toString], and [undefined] when there is none. *)
Theorem declared_strings_round_trip calculatedProps axis component ticks
    stringMap' N :
  tickValues (props component) = Some ticks →
  containsOnlyStrings ticks = true →
  stringMap calculatedProps axis = Some stringMap' →
  NoDup stringMap'.*1 → values stringMap' ≡ₚ codes N →
  ∃ positions,
    getTicks calculatedProps axis component = Returns (Some positions) ∧
    length positions = length ticks ∧
    ∀ i tick, ticks !! i = Some tick →
      ∃ s, tick = VStr s ∧
        match obj_get stringMap' s with
        | Some code =>
            positions !! i = Some (VNum (Qc_of_Z code)) ∧
            getTickFormat component axis calculatedProps (Qc_of_Z code) = VStr s
        | None =>
            positions !! i
            = Some (if decide (s ∈ Object_prototype) then VInherited s
                    else VUndef)
        end.
Proof.
  intros Hticks Hall Hsm Hkeys Hperm.
  exists (stringMap_at stringMap' <$> ticks). split; [|split].
  - unfold getTicks, getTicksFromAxis. by rewrite Hticks, Hsm, Hall.
  - by rewrite length_fmap.
  - intros i tick Hi.
    assert (Hstr : isString tick = true).
    { unfold containsOnlyStrings in Hall. rewrite forallb_forall in Hall.
      apply Hall, list_elem_of_In. by eapply list_elem_of_lookup_2. }
    destruct tick as [| | |s| | |]; try done. exists s. split; [done|].
    rewrite list_lookup_fmap, Hi. simpl.
    destruct (obj_get stringMap' s) as [code|] eqn:Hget; [|done].
    split; [done|].
    assert (Hsome : containsStrings ticks = true).
    { unfold containsStrings. apply existsb_exists. exists (VStr s).
      split; [|done]. apply list_elem_of_In. by eapply list_elem_of_lookup_2. }
    unfold getTickFormat. rewrite Hticks, Hsome, Hsm. simpl.
    by apply (stringMapFormat_dense stringMap' N Hkeys Hperm).
Qed.

Lemma declared_strings_round_trip_witness :
  ∃ positions,
    getTicks (calculatedWith (Some abc) None) X
      (axisWithTicks (Some [VStr "c"; VStr "z"; VStr "constructor"]))
    = Returns (Some positions) ∧
    length positions = 3%nat ∧
    positions !! 0%nat = Some (VNum (Qc_of_Z 3)) ∧
    positions !! 1%nat = Some VUndef ∧
    positions !! 2%nat = Some (VInherited "constructor").
Proof.
  destruct (declared_strings_round_trip (calculatedWith (Some abc) None) X
              (axisWithTicks (Some [VStr "c"; VStr "z"; VStr "constructor"]))
              [VStr "c"; VStr "z"; VStr "constructor"] abc 3)
    as (positions & Hget & Hlen & Hat);
    [reflexivity | reflexivity | reflexivity | compute_done | done |].
  exists positions. split; [done|]. split; [done|].
  destruct (Hat 0%nat (VStr "c") eq_refl) as (s0 & [= <-] & H0 & _).
  destruct (Hat 1%nat (VStr "z") eq_refl) as (s1 & [= <-] & H1).
  destruct (Hat 2%nat (VStr "constructor") eq_refl) as (s2 & [= <-] & H2).
  done.
Defined.

(** X13. Ticks taken from the string map carry the names of the map. For an
    axis without tick values and without category data and a string map with
    the codes [1, ..., N], [getTicks] returns the codes of the map in the
    order in which the map enumerates its keys, and [getTickFormat] labels
    each of them with its key. *)
Theorem stringMap_ticks_labels calculatedProps axis component stringMap' N :
  tickValues (props component) = None →
  calc_categories calculatedProps axis = None →
  stringMap calculatedProps axis = Some stringMap' →
  NoDup stringMap'.*1 → values stringMap' ≡ₚ codes N →
  getTicks calculatedProps axis component
  = Returns (Some (VNum ∘ Qc_of_Z <$> values stringMap')) ∧
  ∀ i key code, stringMap' !! i = Some (key, code) →
    (VNum ∘ Qc_of_Z <$> values stringMap') !! i = Some (VNum (Qc_of_Z code)) ∧
    getTickFormat component axis calculatedProps (Qc_of_Z code) = VStr key.
Proof.
  intros Hticks Hcats Hsm Hkeys Hperm. split.
  - unfold getTicks, getTicksFromAxis, getTicksFromData. cbv zeta.
    by rewrite Hticks, Hcats, Hsm.
  - intros i key code Hi. split.
    + unfold values. by rewrite !list_lookup_fmap, Hi.
    + unfold getTickFormat. rewrite Hticks, Hsm. simpl.
      apply (stringMapFormat_dense stringMap' N Hkeys Hperm).
      apply obj_get_Some; [done|]. by eapply list_elem_of_lookup_2.
Qed.

Lemma stringMap_ticks_labels_witness :
  getTicks (calculatedWith (Some abc) None) Y (axisWithTicks None)
  = Returns (Some (VNum ∘ Qc_of_Z <$> values abc)).
Proof.
  apply (stringMap_ticks_labels (calculatedWith (Some abc) None) Y
           (axisWithTicks None) abc 3);
    [reflexivity | reflexivity | reflexivity | compute_done | done].
Defined.

(** ** createStringMap and getTickFormat together *)

Lemma createStringMap_dense `{AxisHelpers, DataHelpers} childComponents axis
    stringMap' :
  "__proto__" ∉ candidateStrings childComponents axis →
  createStringMap childComponents axis = Some stringMap' →
  let distinct := uniq (candidateStrings childComponents axis) in
  NoDup stringMap'.*1 ∧ values stringMap' ≡ₚ codes (length distinct) ∧
  ∀ i s, distinct !! i = Some s → (s, Z.of_nat i + 1) ∈ stringMap'.
Proof.
  intros Hproto Hsm distinct.
  pose proof (createStringMap_numbered childComponents axis) as Hnum.
  rewrite Hsm in Hnum. destruct Hnum as [_ Hperm]. fold distinct in Hperm.
  rewrite numbered_assigned in Hperm by (unfold distinct; by rewrite uniq_elem).
  split; [|split].
  - rewrite Hperm, numbered_fst. apply uniq_from_NoDup.
  - unfold values, codes. by rewrite Hperm, numbered_snd.
  - intros i s Hi. rewrite Hperm. apply list_elem_of_lookup_2 with i.
    by apply (numbered_lookup 0).
Qed.

(** X14. When [__proto__] is no candidate string, the format made from the
    string map that [createStringMap] returns lists the distinct candidate
    strings in the order of their first occurrence between two empty strings:
    position [i + 1] is labelled with the [i]-th distinct string (counting
    from 0), and the positions [0] and [N + 1] with the empty string. This
    holds for an axis without tick values or with tick values that contain a
    string. *)
Theorem createStringMap_format `{AxisHelpers, DataHelpers}
    childComponents axis calculatedProps component stringMap' :
  "__proto__" ∉ candidateStrings childComponents axis →
  createStringMap childComponents axis = Some stringMap' →
  stringMap calculatedProps axis = Some stringMap' →
  (tickValues (props component) = None ∨
   ∃ ticks, tickValues (props component) = Some ticks ∧
            containsStrings ticks = true) →
  let distinct := uniq (candidateStrings childComponents axis) in
  let format := getTickFormat component axis calculatedProps in
  dataTicks stringMap' = [VStr ""] ++ (VStr <$> distinct) ++ [VStr ""] ∧
  (∀ x, format x = array_at ([VStr ""] ++ (VStr <$> distinct) ++ [VStr ""]) x) ∧
  format (Qc_of_Z 0) = VStr "" ∧
  format (Qc_of_Z (Z.of_nat (length distinct) + 1)) = VStr "" ∧
  ∀ i s, distinct !! i = Some s → format (Qc_of_Z (Z.of_nat i + 1)) = VStr s.
Proof.
  intros Hproto Hcreate Hsm Hticks distinct format.
  destruct (createStringMap_dense childComponents axis stringMap' Hproto Hcreate)
    as (Hkeys & Hperm & Hcode).
  fold distinct in Hperm, Hcode.
  destruct (stringMapFormat_dense stringMap' (length distinct) Hkeys Hperm)
    as (Hdata & Hzero & Hlast & Hlabel).
  assert (Hformat : format = stringMapFormat stringMap').
  { unfold format, getTickFormat. rewrite Hsm.
    destruct Hticks as [->|(ticks & -> & ->)]; done. }
  assert (Hnames : inverted_at (invert stringMap') <$> codes (length distinct)
                   = VStr <$> distinct).
  { apply list_eq. intros i. rewrite !list_lookup_fmap.
    destruct (distinct !! i) as [s|] eqn:Hi; simpl.
    - rewrite codes_lookup by (by eapply lookup_lt_Some). simpl.
      unfold inverted_at. rewrite (invert_lookup _ s); [done | | by apply Hcode].
      rewrite Hperm. apply codes_NoDup.
    - apply lookup_ge_None in Hi. unfold codes.
      rewrite list_lookup_fmap, lookup_seq_ge by lia. done. }
  rewrite Hformat. split; [by rewrite Hdata, Hnames|].
  split; [intros x; unfold stringMapFormat; by rewrite Hdata, Hnames|].
  split; [done|]. split; [done|].
  intros i s Hi. apply Hlabel, obj_get_Some; [done | by apply Hcode].
Qed.

Lemma createStringMap_format_witness :
  let calculatedProps :=
    calculatedWith (Some [("b", 1); ("a", 2); ("c", 3); ("d", 4)]) None in
  ("__proto__" ∉ @candidateStrings sampleAxisHelpers sampleDataHelpers
                   [stringAxis; stringBar] X) ∧
  getTickFormat (axisWithTicks None) X calculatedProps (Qc_of_Z (Z.of_nat 2 + 1))
  = VStr "c".
Proof.
  assert (Hproto : "__proto__" ∉ (@candidateStrings sampleAxisHelpers
                                    sampleDataHelpers [stringAxis; stringBar] X)).
  { vm_compute. intros Hin.
    repeat (apply elem_of_cons in Hin as [?|Hin]; [done|]).
    by apply elem_of_nil in Hin. }
  split; [done|].
  apply (@createStringMap_format sampleAxisHelpers sampleDataHelpers
           [stringAxis; stringBar] X
           (calculatedWith (Some [("b", 1); ("a", 2); ("c", 3); ("d", 4)]) None)
           (axisWithTicks None) [("b", 1); ("a", 2); ("c", 3); ("d", 4)]);
    [done | vm_compute; reflexivity | reflexivity | by left
    | vm_compute; reflexivity].
Defined.

Lemma reduce_index_plain l : ∀ index memo,
  NoDup l → (∀ s, s ∈ l → s ∉ memo.*1) →
  (∀ s, s ∈ l → array_index s = None ∧ s ≠ "__proto__") →
  reduce_index (λ memo string index, obj_set memo string (Z.of_nat index + 1))
    l index memo
  = memo ++ numbered index l.
Proof.
  induction l as [|x l IH]; intros index memo Hl Hfresh Hplain; simpl.
  - by rewrite app_nil_r.
  - apply NoDup_cons in Hl as [Hx Hl].
    assert (Hset : obj_set memo x (Z.of_nat index + 1)
                   = memo ++ [(x, Z.of_nat index + 1)]).
    { unfold obj_set. destruct (Hplain x) as [Hindex Hproto]; [by left|].
      rewrite (proj2 (obj_get_None memo x)) by (apply Hfresh; by left).
      rewrite decide_False by done. by rewrite Hindex. }
    rewrite Hset, IH; [| done | |].
    + by rewrite <- (assoc_L (++)), numbered_cons.
    + intros s Hs. rewrite fmap_app, elem_of_app. simpl.
      rewrite list_elem_of_singleton. intros [Hin| ->]; [|done].
      apply (Hfresh s); [by right | done].
    + intros s Hs. apply Hplain. by right.
Qed.

(** X15. When no candidate string is the decimal form of an array index or
    the string [__proto__], the string map enumerates its keys in the order
    of their first occurrence, so that the ticks taken from the map are
    [1, 2, ..., N] in ascending order. *)
Theorem createStringMap_enumeration `{AxisHelpers, DataHelpers}
    childComponents axis :
  (∀ s, s ∈ candidateStrings childComponents axis → array_index s = None) →
  "__proto__" ∉ candidateStrings childComponents axis →
  candidateStrings childComponents axis ≠ [] →
  let distinct := uniq (candidateStrings childComponents axis) in
  createStringMap childComponents axis = Some (numbered 0 distinct) ∧
  (numbered 0 distinct).*1 = distinct ∧
  values (numbered 0 distinct) = codes (length distinct) ∧
  ∀ calculatedProps,
    stringMap calculatedProps axis = createStringMap childComponents axis →
    calc_categories calculatedProps axis = None →
    getTicksFromData calculatedProps axis
    = Returns (Some (VNum ∘ Qc_of_Z <$> codes (length distinct))).
Proof.
  intros Hplain Hproto Hne distinct.
  assert (Hcreate : createStringMap childComponents axis
                    = Some (numbered 0 distinct)).
  { unfold createStringMap. rewrite decide_False.
    - rewrite reduce_index_plain; [done | apply uniq_from_NoDup | |].
      + intros s _. apply not_elem_of_nil.
      + intros s Hs. apply (proj1 (uniq_elem _ _)) in Hs.
        split; [by apply Hplain|]. intros ->. by apply Hproto.
    - intros Hlen%length_zero_iff_nil. apply Hne. by apply uniq_nil. }
  assert (Hvalues : values (numbered 0 distinct) = codes (length distinct))
    by apply numbered_snd.
  split; [done|]. split; [apply numbered_fst|]. split; [done|].
  intros calculatedProps Hsm Hcats. unfold getTicksFromData. cbv zeta.
  rewrite Hcats, Hsm, Hcreate. by rewrite <- Hvalues.
Qed.

Lemma createStringMap_enumeration_witness :
  (∀ s, s ∈ @candidateStrings sampleAxisHelpers sampleDataHelpers
              [stringAxis; stringBar] X → array_index s = None) ∧
  ("__proto__" ∉ @candidateStrings sampleAxisHelpers sampleDataHelpers
                   [stringAxis; stringBar] X) ∧
  @createStringMap sampleAxisHelpers sampleDataHelpers [stringAxis; stringBar] X
  = Some (numbered 0 (uniq (@candidateStrings sampleAxisHelpers
                              sampleDataHelpers [stringAxis; stringBar] X))).
Proof.
  assert (Hplain : ∀ s,
    s ∈ @candidateStrings sampleAxisHelpers sampleDataHelpers
          [stringAxis; stringBar] X → array_index s = None).
  { intros s Hs. vm_compute in Hs.
    repeat (apply elem_of_cons in Hs as [->|Hs]; [reflexivity|]).
    by apply elem_of_nil in Hs. }
  assert (Hproto : "__proto__" ∉ (@candidateStrings sampleAxisHelpers
                                    sampleDataHelpers [stringAxis; stringBar] X)).
  { vm_compute. intros Hin.
    repeat (apply elem_of_cons in Hin as [?|Hin]; [done|]).
    by apply elem_of_nil in Hin. }
  split; [done|]. split; [done|].
  by apply (@createStringMap_enumeration sampleAxisHelpers sampleDataHelpers
              [stringAxis; stringBar] X).
Defined.

Lemma Qc_integer (x : Num) : Qden x = 1%positive → x = Qc_of_Z (Qnum x).
Proof.
  intros Hden. apply Qc_is_canon. destruct x as [[n d] Hcanon].
  simpl in *. by subst d.
Qed.

Lemma dataTicks_strings stringMap' N :
  values stringMap' ≡ₚ codes N →
  Forall (λ v, isString v = true) (dataTicks stringMap') ∧
  length (dataTicks stringMap') = (N + 2)%nat.
Proof.
  intros Hperm. unfold dataTicks. rewrite (sortBy_codes _ N Hperm). split.
  - apply Forall_app. split; [by apply Forall_singleton|].
    apply Forall_app. split; [|by apply Forall_singleton].
    apply Forall_fmap, Forall_forall. intros c Hc. simpl.
    rewrite <- Hperm in Hc. apply list_elem_of_fmap in Hc as ([s c'] & -> & Hin).
    clear Hperm. unfold inverted_at. simpl.
    enough (is_Some (invert stringMap' !! c')) as [s' ->] by done.
    induction stringMap' as [|[k v] sm IH] using rev_ind.
    + by apply elem_of_nil in Hin.
    + rewrite invert_snoc. destruct (decide (v = c')) as [->|Hne].
      * by rewrite lookup_insert_eq.
      * rewrite lookup_insert_ne by done. apply IH.
        apply elem_of_app in Hin as [Hin|Hin]; [done|].
        apply list_elem_of_singleton in Hin. congruence.
  - rewrite !length_app, length_fmap. unfold codes.
    rewrite length_fmap, length_seq. simpl. lia.
Qed.

(** X16. The format of a string map with the codes [1, ..., N] is defined
    on the integers from [0] to [N + 1] and nowhere else: there it gives a
    string, the empty one for the two padding positions or the name of a
    code, and for a negative, fractional or larger position it gives
    [undefined]. It never gives back a number. *)
Theorem stringMapFormat_domain calculatedProps axis component stringMap' N :
  stringMap calculatedProps axis = Some stringMap' →
  (tickValues (props component) = None ∨
   ∃ ticks, tickValues (props component) = Some ticks ∧
            containsStrings ticks = true) →
  values stringMap' ≡ₚ codes N →
  let format := getTickFormat component axis calculatedProps in
  (∀ x, format x ≠ VUndef ↔ ∃ k, 0 ≤ k ≤ Z.of_nat N + 1 ∧ x = Qc_of_Z k) ∧
  (∀ x, format x = VUndef ∨ ∃ s, format x = VStr s).
Proof.
  intros Hsm Hticks Hperm format.
  assert (Hformat : format = stringMapFormat stringMap').
  { unfold format, getTickFormat. rewrite Hsm.
    destruct Hticks as [->|(ticks & -> & ->)]; done. }
  destruct (dataTicks_strings stringMap' N Hperm) as [Hstr Hlen].
  assert (Hat : ∀ i v, dataTicks stringMap' !! i = Some v → ∃ s, v = VStr s).
  { intros i v Hi. rewrite Forall_forall in Hstr.
    specialize (Hstr v (list_elem_of_lookup_2 _ _ _ Hi)).
    destruct v; try done. by eexists. }
  rewrite Hformat. unfold stringMapFormat. split.
  - intros x. split.
    + unfold array_at. case_decide as Hint; [|done]. destruct Hint as [Hden Hnum].
      intros Hdef. exists (Qnum x). split; [|by apply Qc_integer].
      destruct (dataTicks stringMap' !! Z.to_nat (Qnum x)) eqn:Hi; [|done].
      apply lookup_lt_Some in Hi. lia.
    + intros (k & Hk & ->). rewrite array_at_Z by lia.
      destruct (lookup_lt_is_Some_2 (dataTicks stringMap') (Z.to_nat k))
        as [v Hv]; [lia|].
      rewrite Hv. simpl. by destruct (Hat _ _ Hv) as [s ->].
  - intros x. unfold array_at. case_decide; [|by left].
    destruct (dataTicks stringMap' !! Z.to_nat (Qnum x)) as [v|] eqn:Hi;
      [|by left].
    right. simpl. by apply (Hat _ _ Hi).
Qed.

Lemma stringMapFormat_domain_witness :
  getTickFormat (axisWithTicks None) X (calculatedWith (Some abc) None)
    (Qc_of_Z 5) = VUndef ∨
  ∃ s, getTickFormat (axisWithTicks None) X (calculatedWith (Some abc) None)
         (Qc_of_Z 5) = VStr s.
Proof.
  apply (stringMapFormat_domain (calculatedWith (Some abc) None) X
           (axisWithTicks None) abc 3); [reflexivity | by left | done].
Defined.

(** ** getAxisOffset: flipped domains, the place of the origin *)

Lemma num_min_comm a b : num_min a b = num_min b a.
Proof.
  unfold num_min. repeat case_decide; try done.
  - by apply Qcle_antisym.
  - destruct (Qc_le_total a b); done.
Qed.

Lemma num_max_zero m :
  ((m ≤ 0)%Qc → num_max m 0%Qc = 0%Qc) ∧ ((0 ≤ m)%Qc → num_max m 0%Qc = m).
Proof.
  unfold num_max. split; intros Hm; case_decide; try done.
  by apply Qcle_antisym.
Qed.

(** X17. The offsets do not depend on the order of the two entries of a
    domain: flipping the domains leaves [getAxisOffset] unchanged. Without an
    override on the [x] axis component, its offset is measured to the scaled
    [0] as soon as one entry of the [x] domain is zero or negative, and to the
    scaled lesser entry when both entries are zero or positive. *)
Theorem getAxisOffset_origin `{AxisHelpers} chartProps calculatedProps :
  let d := calc_domain calculatedProps X in
  let anchor :=
    if decide (getOrientation (axisComponents calculatedProps Y) Y = "left")
    then 0%Qc else width chartProps in
  getAxisOffset chartProps (flipDomains calculatedProps)
  = getAxisOffset chartProps calculatedProps ∧
  (offsetX (axisComponents calculatedProps X) = None →
   (d.1 ≤ 0 ∨ d.2 ≤ 0)%Qc →
   offset_x (getAxisOffset chartProps calculatedProps)
   = Math_abs (anchor - call (scale calculatedProps X) 0)%Qc) ∧
  (offsetX (axisComponents calculatedProps X) = None →
   (0 ≤ d.1 ∧ 0 ≤ d.2)%Qc →
   offset_x (getAxisOffset chartProps calculatedProps)
   = Math_abs (anchor - call (scale calculatedProps X) (num_min d.1 d.2))%Qc ∧
   (num_min d.1 d.2 ≤ d.1 ∧ num_min d.1 d.2 ≤ d.2)%Qc).
Proof.
  intros d anchor. split; [|split].
  - unfold getAxisOffset, flipDomains. simpl. unfold Math_min. simpl.
    by rewrite (num_min_comm (calc_domain calculatedProps X).2),
      (num_min_comm (calc_domain calculatedProps Y).2).
  - intros Hnone Hneg. unfold getAxisOffset. cbv zeta. simpl. rewrite Hnone.
    simpl. fold d. unfold Math_min. simpl.
    assert (Hmin : (num_min d.1 d.2 ≤ 0)%Qc).
    { destruct (num_min_cases d.1 d.2) as [[-> Hle]|[-> Hle]], Hneg as [?|?];
        try done; by etrans. }
    by rewrite (proj1 (num_max_zero _) Hmin).
  - intros Hnone [H1 H2]. unfold getAxisOffset. cbv zeta. simpl. rewrite Hnone.
    simpl. fold d. unfold Math_min. simpl.
    assert (Hmin : (0 ≤ num_min d.1 d.2)%Qc).
    { by destruct (num_min_cases d.1 d.2) as [[-> _]|[-> _]]. }
    rewrite (proj2 (num_max_zero _) Hmin). split; [done|].
    destruct (num_min_cases d.1 d.2) as [[-> Hle]|[-> Hle]];
      split; done || apply Qcle_refl.
Qed.

Lemma getAxisOffset_origin_witness :
  offsetX (axisComponents (calculatedWithOffsetX None) X) = None ∧
  offset_x (@getAxisOffset sampleAxisHelpers (chartOf None)
              (calculatedWithOffsetX None))
  = Math_abs (0 - call (scale (calculatedWithOffsetX None) X) 0)%Qc.
Proof.
  split; [reflexivity|].
  apply (@getAxisOffset_origin sampleAxisHelpers (chartOf None)
           (calculatedWithOffsetX None)); [reflexivity|].
  left. by compute_done.
Defined.

(** ** createStringMap: the strings of the axis come first *)

Lemma uniq_from_app a : ∀ seen b,
  ∃ seen', uniq_from seen (a ++ b) = uniq_from seen a ++ uniq_from seen' b.
Proof.
  induction a as [|x a IH]; intros seen b; simpl.
  - by exists seen.
  - case_decide.
    + apply IH.
    + destruct (IH (x :: seen) b) as [seen' ->]. by exists seen'.
Qed.

(** X18. The tick strings of the axis take the lowest codes: whatever the
    other children declare as categories or data, the [i]-th distinct tick
    string of the axis component (counting from 0) has the code [i + 1],
    unless it is [__proto__], which has no code; and every string that is no
    tick string has a greater code than every tick string. *)
Theorem createStringMap_tick_priority `{AxisHelpers, DataHelpers}
    childComponents axis stringMap' :
  createStringMap childComponents axis = Some stringMap' →
  let tickStrings :=
    getStringsFromAxes (props (getAxisComponent childComponents axis)) axis in
  (∀ i s, uniq tickStrings !! i = Some s → s ≠ "__proto__" →
          obj_get stringMap' s = Some (Z.of_nat i + 1)) ∧
  obj_get stringMap' "__proto__" = None ∧
  (∀ s t c d, s ∈ tickStrings → t ∉ tickStrings →
              obj_get stringMap' s = Some c → obj_get stringMap' t = Some d →
              c < d).
Proof.
  intros Hcreate tickStrings.
  destruct (createStringMap_entries childComponents axis stringMap' Hcreate)
    as (Hkeys & _ & Hget).
  destruct (uniq_from_app tickStrings []
              (categoryStrings childComponents axis
               ++ dataStrings childComponents axis)) as [seen' Happ].
  change (uniq (candidateStrings childComponents axis)
          = uniq tickStrings ++ uniq_from seen'
              (categoryStrings childComponents axis
               ++ dataStrings childComponents axis)) in Happ.
  rewrite Happ in Hget.
  split; [|split].
  - intros i s Hi Hproto. apply Hget. split; [done|]. exists i.
    split; [|done]. by apply lookup_app_l_Some.
  - destruct (obj_get stringMap' "__proto__") as [c|] eqn:Hc; [|done].
    by apply Hget in Hc as [? _].
  - intros s t c d Hs Ht Hc Hd.
    apply Hget in Hc as (_ & i & Hi & ->). apply Hget in Hd as (_ & j & Hj & ->).
    apply uniq_elem, list_elem_of_lookup_1 in Hs as [i' Hi'].
    assert (Hnd : NoDup (uniq tickStrings ++ uniq_from seen'
                           (categoryStrings childComponents axis
                            ++ dataStrings childComponents axis))).
    { rewrite <- Happ. apply uniq_from_NoDup. }
    assert (i = i').
    { apply (NoDup_lookup _ _ _ s Hnd); [done|]. by apply lookup_app_l_Some. }
    subst i'. apply lookup_lt_Some in Hi'.
    destruct (decide (j < length (uniq tickStrings))%nat) as [Hlt|Hge].
    + rewrite lookup_app_l in Hj by done.
      apply list_elem_of_lookup_2 in Hj. rewrite uniq_elem in Hj. done.
    + lia.
Qed.

Lemma createStringMap_tick_priority_witness :
  uniq [("b" : string); "a"] !! 1%nat = Some "a" ∧
  obj_get [("b", 1); ("a", 2); ("c", 3); ("d", 4)] "a" = Some (Z.of_nat 1 + 1).
Proof.
  split; [reflexivity|].
  apply (@createStringMap_tick_priority sampleAxisHelpers sampleDataHelpers
           [stringAxis; stringBar] X [("b", 1); ("a", 2); ("c", 3); ("d", 4)]);
    [vm_compute; reflexivity | vm_compute; reflexivity | done].
Defined.

(** ** Instances of the properties above *)

Lemma getChildComponents_order_witness :
  ∃ kept log',
    getChildComponents (chartOf (Some sampleNodes)) sampleAxes [] 
    = Some (kept ++ missingAxes sampleAxes (elements sampleNodes), log') ∧
    kept `sublist_of` elements sampleNodes.
Proof.
  destruct (getChildComponents_order (chartOf (Some sampleNodes)) sampleAxes [])
    as (kept & log' & Hget & Hsub & _).
  by exists kept, log'.
Defined.

Lemma getDataComponents_partition_witness :
  element VictoryLine (sampleProps false)
  ∉ getDataComponents
      [element VictoryBar (sampleProps false);
       element VictoryLine (sampleProps false)] grouped.
Proof.
  apply (getDataComponents_partition
           [element VictoryBar (sampleProps false);
            element VictoryLine (sampleProps false)]).
  rewrite getDataComponents_data. apply list_elem_of_filter.
  split; [by split | by right; left].
Defined.

